(** * The post controllers of the images backend (src/controllers/posts-controller.ts)

    A shallow embedding of the Express handlers [getFeed], [createPost],
    [editPost], [deletePost] and [createComment], over a model of the three
    Mongoose collections they work on, followed by the properties of the
    consistency layer.

    The handlers are [async] functions: they await the document store and the
    geocoder, either of which may reject, and they wrap those awaits in
    [try]/[catch].  They are embedded in a state-and-exception monad over a
    [World] (the committed store and a trace of the external calls made so
    far).  What the collaborators answer is fixed by an [Env]: the geocoder,
    which store calls reject, the clock and the ObjectId generator. *)

From Stdlib Require Import ZArith.
From stdpp Require Import base option strings list gmap sorting.

Local Open Scope string_scope.
Local Open Scope list_scope.
Local Open Scope Z_scope.

(** ** Documents *)

(** An ObjectId in its hexadecimal string form, which is how the handlers
    compare identifiers ([creatorId.toString()], [creatorId.id]). *)
Abbreviation ObjectId := string (only parsing).

(** The geocoder's answer.  The handlers only move this value around, so the
    two numbers are kept as integers (micro-degrees). *)
Record Coordinates := mkCoordinates { lat : Z; lng : Z }.

(** Modelled from the spec: models/userSchema is not under src/.  Section 3
    gives a user an identifier, the ordered list of its posts and the ordered
    list of its comments; these are the only fields the handlers touch. *)
Record User := mkUser {
  u_posts : list ObjectId;
  u_comments : list ObjectId
}.

(** Modelled from the spec: models/postSchema is not under src/.  The fields
    are the ones [createPost] passes to [new PostModel], plus the comment list
    that [createComment] pushes to.  [p_createDate] is the value of
    [Date.now()]; the source stores its ISO-8601 rendering, whose order is the
    order of the instants. *)
Record Post := mkPost {
  p_title : string;
  p_description : string;
  p_creatorId : ObjectId;
  p_address : string;
  p_coordinates : Coordinates;
  p_createDate : Z;
  p_image : option string;
  p_comments : list ObjectId
}.

(** Modelled from the spec: models/commentSchema is not under src/.  The
    fields are the ones [createComment] passes to [new CommentModel]. *)
Record Comment := mkComment {
  c_creatorId : ObjectId;
  c_createDate : Z;
  c_comment : string;
  c_post : ObjectId
}.

(** A Mongoose document: the fields together with the [_id] it is stored
    under. *)
Record Doc (A : Type) := mkDoc { _id : ObjectId; fields : A }.
Arguments mkDoc {A} _ _.
Arguments _id {A} _.
Arguments fields {A} _.

(** ** The store *)

(** The three collections, each keyed by [_id]. *)
Record Store := mkStore {
  users : gmap string User;
  posts : gmap string Post;
  comments : gmap string Comment
}.

(** A write as the store receives it. *)
Inductive Mutation :=
| InsertPost (d : Doc Post)
| UpdatePost (d : Doc Post)
| RemovePost (id : ObjectId)
| InsertComment (d : Doc Comment)
| UpdateUser (d : Doc User).

Definition apply_mutation (s : Store) (m : Mutation) : Store :=
  match m with
  | InsertPost d | UpdatePost d =>
      mkStore (users s) (<[_id d := fields d]> (posts s)) (comments s)
  | RemovePost id =>
      mkStore (users s) (delete id (posts s)) (comments s)
  | InsertComment d =>
      mkStore (users s) (posts s) (<[_id d := fields d]> (comments s))
  | UpdateUser d =>
      mkStore (<[_id d := fields d]> (users s)) (posts s) (comments s)
  end.

(** A client session with a transaction started on it: the writes issued under
    the session so far, oldest first.  They reach the store on commit only. *)
Abbreviation ClientSession := (list Mutation) (only parsing).

(** ** Calls to collaborators *)

(** The calls the handlers make to the store. *)
Inductive StoreOp :=
| PostFind                                 (* PostModel.find().sort().limit() *)
| PostFindById (id : ObjectId)             (* PostModel.findById(id) *)
| PostFindByIdPopulate (id : ObjectId)     (* ....populate("creatorId") *)
| UserFindById (id : ObjectId)             (* UserModel.findById(id) *)
| StartSession                             (* startSession() *)
| PostSave (id : ObjectId)                 (* post.save(..) *)
| PostRemove (id : ObjectId)               (* post.remove(..) *)
| UserSave (id : ObjectId)                 (* user.save(..) *)
| CommentSave (id : ObjectId)              (* comment.save(..) *)
| CommitTransaction.                       (* session.commitTransaction() *)

Definition is_read (op : StoreOp) : bool :=
  match op with
  | PostFind | PostFindById _ | PostFindByIdPopulate _ | UserFindById _ => true
  | _ => false
  end.

Definition is_write (op : StoreOp) : bool :=
  match op with
  | PostSave _ | PostRemove _ | UserSave _ | CommentSave _ | CommitTransaction => true
  | _ => false
  end.

(** The trace of a request: every call that left the handler, in order. *)
Inductive Event :=
| Geocode (address : string)
| Db (op : StoreOp).

Definition is_geocode (e : Event) : bool :=
  match e with Geocode _ => true | Db _ => false end.

Definition is_db_read (e : Event) : bool :=
  match e with Db op => is_read op | Geocode _ => false end.

Definition is_db_write (e : Event) : bool :=
  match e with Db op => is_write op | Geocode _ => false end.

Record World := mkWorld {
  db : Store;
  trace : list Event
}.

(** ** Errors and responses *)

(** What a [throw] or a rejected promise carries. *)
Inductive Thrown :=
| HttpError (message code : string)   (* new HttpError(message, code) *)
| TypeError                           (* a property read on null *)
| MongoError                          (* the store rejected the call *)
| GeocodeFailure (address : string).  (* getCoordsFromAddress rejected *)

Inductive Completion (A : Type) :=
| Return (a : A)
| Throw (e : Thrown).
Arguments Return {A} _.
Arguments Throw {A} _.

Inductive Body :=
| PostBody (d : Doc Post)
| PostsBody (ds : list (Doc Post))
| CommentBody (d : Doc Comment)
| MessageBody (message : string).

(** How a handler ends: [next(err)], [res.status(s).json(b)], or an exception
    that leaves the [async] function (a rejected promise Express never sees). *)
Inductive Response :=
| next (e : Thrown)
| json (status : nat) (b : Body)
| unhandled (e : Thrown).

Definition succeeded (r : Response) : bool :=
  match r with json _ _ => true | _ => false end.

(** The error kinds of the specification (section 7), read off the value
    handed to [next]: the HTTP code of an [HttpError], with the two 500s told
    apart by their message as the source does, and the geocoder's own
    rejection, which [createPost] forwards untouched. *)
Inductive ErrorKind :=
| NotFound | Unauthorized | GeocodeError | StoreError | ValidationError.

Definition kind_of_thrown (e : Thrown) : option ErrorKind :=
  match e with
  | GeocodeFailure _ => Some GeocodeError
  | HttpError message code =>
      if String.eqb code "404" then Some NotFound
      else if String.eqb code "401" then Some Unauthorized
      else if String.eqb code "422" then Some ValidationError
      else if String.eqb code "500" then
        if String.eqb message "An error occured translating location, please try again."
        then Some GeocodeError else Some StoreError
      else None
  | TypeError | MongoError => None
  end.

Definition error_kind (r : Response) : option ErrorKind :=
  match r with
  | next e => kind_of_thrown e
  | json _ _ | unhandled _ => None
  end.

(** ** The request *)

(** The parts of [req] the handlers read.  [validation_ok] is
    [validationResult(req).isEmpty()]. *)
Record Request := mkRequest {
  validation_ok : bool;
  userId : ObjectId;                 (* req.userData.userId *)
  pid : ObjectId;                    (* req.params.pid *)
  title : string;                    (* req.body.title *)
  description : string;              (* req.body.description *)
  address : string;                  (* req.body.address *)
  comment : string;                  (* req.body.comment *)
  postId : ObjectId;                 (* req.body.postId *)
  file_location : option string      (* req.file?.location *)
}.

(** ** The environment of one request *)

(** [getCoordsFromAddress] (util/location, not under src/) is a parameter:
    [None] is a rejected lookup.  [rejects op] says that the store call [op]
    rejects (the store is unreachable, the identifier does not cast to an
    ObjectId, the transaction aborts).  [now] is [Date.now()], [newObjectId]
    the identifier Mongoose gives the document built by this request. *)
Record Env := mkEnv {
  getCoordsFromAddress : string → option Coordinates;
  rejects : StoreOp → bool;
  now : Z;
  newObjectId : ObjectId
}.

(** ** The monad of an async handler *)

Definition Async (A : Type) : Type := World → Completion A * World.

Definition async_ret {A} (a : A) : Async A := λ w, (Return a, w).

Definition async_bind {A B} (m : Async A) (k : A → Async B) : Async B :=
  λ w, match m w with
       | (Return a, w') => k a w'
       | (Throw e, w') => (Throw e, w')
       end.

Definition throw {A} (e : Thrown) : Async A := λ w, (Throw e, w).

(** [try { m } catch (err) { ... }]: the completion of [m] as a value. *)
Definition try_catch {A} (m : Async A) : Async (Completion A) :=
  λ w, let '(r, w') := m w in (Return r, w').

Instance Async_ret : MRet Async := @async_ret.
Instance Async_bind : MBind Async := λ A B k m, async_bind m k.

(** The handler as Express runs it: an exception that escapes is a rejected
    promise. *)
Definition handle (m : Async Response) (w : World) : Response * World :=
  match m w with
  | (Return r, w') => (r, w')
  | (Throw e, w') => (unhandled e, w')
  end.

Section Controllers.

Context (env : Env).

(** *** Collaborator calls *)

Definition record (e : Event) (w : World) : World :=
  mkWorld (db w) (trace w ++ [e]).

(** [await getCoordsFromAddress(address)]. *)
Definition geocode (address : string) : Async Coordinates :=
  λ w, match getCoordsFromAddress env address with
       | Some c => (Return c, record (Geocode address) w)
       | None => (Throw (GeocodeFailure address), record (Geocode address) w)
       end.

(** A store call: it is traced, and rejects when the environment says so;
    otherwise [f] computes its answer and the store it leaves. *)
Definition store_call {A} (op : StoreOp) (f : Store → Completion A * Store) : Async A :=
  λ w, if rejects env op then (Throw MongoError, record (Db op) w)
       else let '(r, s) := f (db w) in (r, mkWorld s (trace w ++ [Db op])).

Definition query {A} (op : StoreOp) (f : Store → A) : Async A :=
  store_call op (λ s, (Return (f s), s)).

Definition doc_at {A} (m : gmap string A) (id : ObjectId) : option (Doc A) :=
  mkDoc id <$> m !! id.

(** [Model.findById(id)] resolves to the document or to [null]. *)
Definition UserModel_findById (id : ObjectId) : Async (option (Doc User)) :=
  query (UserFindById id) (λ s, doc_at (users s) id).

Definition PostModel_findById (id : ObjectId) : Async (option (Doc Post)) :=
  query (PostFindById id) (λ s, doc_at (posts s) id).

(** [PostModel.findById(id).populate("creatorId")]: the post with the user its
    [creatorId] refers to in place of the identifier ([null] when there is no
    such user). *)
Definition PostModel_findById_populate (id : ObjectId)
  : Async (option (Doc Post * option (Doc User))) :=
  query (PostFindByIdPopulate id)
    (λ s, (λ d, (d, doc_at (users s) (p_creatorId (fields d)))) <$> doc_at (posts s) id).

Definition createDate_le (a b : Doc Post) : Prop :=
  p_createDate (fields a) ≤ p_createDate (fields b).

Instance createDate_le_dec a b : Decision (createDate_le a b).
Proof. unfold createDate_le. apply _. Defined.

Definition all_posts (s : Store) : list (Doc Post) :=
  (λ kv, mkDoc kv.1 kv.2) <$> map_to_list (posts s).

(** [.sort({ createDate: 1 })]: ascending in [createDate]. *)
Definition sort_createDate_asc (ds : list (Doc Post)) : list (Doc Post) :=
  merge_sort createDate_le ds.

(** [PostModel.find().sort({ createDate: 1 }).limit(50)]. *)
Definition PostModel_find_sort_limit : Async (list (Doc Post)) :=
  query PostFind (λ s, take 50 (sort_createDate_asc (all_posts s))).

Definition startSession : Async unit :=
  query StartSession (λ _, ()).

(** [session.startTransaction()] is synchronous and touches nothing. *)
Definition startTransaction : ClientSession := [].

(** [doc.save({ session })], [doc.remove({ session })]: the write joins the
    transaction. *)
Definition stage (op : StoreOp) (m : Mutation) (session : ClientSession)
  : Async ClientSession :=
  query op (λ _, session ++ [m]).

(** Saving a document built with [new Model(..)] is an insert, which the store
    rejects when the [_id] is taken. *)
Definition stage_insert {A} (op : StoreOp) (coll : Store → gmap string A)
    (id : ObjectId) (m : Mutation) (session : ClientSession) : Async ClientSession :=
  store_call op (λ s,
    match coll s !! id with
    | Some _ => (Throw MongoError, s)
    | None => (Return (session ++ [m]), s)
    end).

Definition PostModel_save_new (d : Doc Post) (session : ClientSession) :=
  stage_insert (PostSave (_id d)) posts (_id d) (InsertPost d) session.

Definition CommentModel_save_new (d : Doc Comment) (session : ClientSession) :=
  stage_insert (CommentSave (_id d)) comments (_id d) (InsertComment d) session.

Definition UserModel_save (d : Doc User) (session : ClientSession) :=
  stage (UserSave (_id d)) (UpdateUser d) session.

Definition PostModel_save (d : Doc Post) (session : ClientSession) :=
  stage (PostSave (_id d)) (UpdatePost d) session.

Definition PostModel_remove (d : Doc Post) (session : ClientSession) :=
  stage (PostRemove (_id d)) (RemovePost (_id d)) session.

(** [session.commitTransaction()]: every write of the transaction reaches the
    store, or (when the commit rejects) none does. *)
Definition commitTransaction (session : ClientSession) : Async unit :=
  store_call CommitTransaction (λ s, (Return (), foldl apply_mutation s session)).

(** [doc.save()] outside a session: one write, applied at once. *)
Definition PostModel_save_now (d : Doc Post) : Async unit :=
  store_call (PostSave (_id d)) (λ s, (Return (), apply_mutation s (UpdatePost d))).

(** [user!.posts.push(..)] and the like: the [!] is erased by the compiler, so
    on [null] the property read throws. *)
Definition deref {A} (o : option A) : Async A :=
  match o with
  | Some a => async_ret a
  | None => throw TypeError
  end.

(** *** The handlers *)

Definition getFeed (req : Request) : World → Response * World :=
  handle (
    r ← try_catch (
      feedPosts ← PostModel_find_sort_limit;
      mret (json 200 (PostsBody feedPosts)));
    match r with
    | Return res => mret res
    | Throw err => mret (next (HttpError "Error fetching feed." "500"))
    end).

Definition createPost (req : Request) : World → Response * World :=
  handle (
    if negb (validation_ok req) then
      mret (next (HttpError "Invalid Inputs, Please check inputs" "422"))
    else
    r ← try_catch (geocode (address req));
    match r with
    | Throw error => mret (next error)
    | Return coordinates =>
    let createdPlace :=
      mkDoc (newObjectId env)
        {| p_title := title req;
           p_description := description req;
           p_creatorId := userId req;
           p_address := address req;
           p_coordinates := coordinates;
           p_createDate := now env;
           p_image := file_location req;
           p_comments := [] |} in
    r ← try_catch (UserModel_findById (userId req));
    match r with
    | Throw err =>
        mret (next (HttpError "Could not find user with provided ID" "404"))
    | Return user =>
    r ← try_catch (
      startSession;;
      postSession ← mret startTransaction;
      postSession ← PostModel_save_new createdPlace postSession;
      user ← deref user;
      let user := mkDoc (_id user)
                    (mkUser (u_posts (fields user) ++ [_id createdPlace])
                            (u_comments (fields user))) in
      postSession ← UserModel_save user postSession;
      commitTransaction postSession);
    match r with
    | Throw err =>
        mret (next (HttpError "A communication error occured, please try again." "500"))
    | Return _ =>
        mret (json 201 (PostBody createdPlace))
    end end end).

Definition editPost (req : Request) : World → Response * World :=
  handle (
    let postId := pid req in
    if negb (validation_ok req) then
      mret (next (HttpError "Invalid Inputs, Please check inputs" "422"))
    else
    r ← try_catch (PostModel_findById postId);
    match r with
    | Throw err =>
        mret (next (HttpError "Could not find a matching post ID." "404"))
    | Return filteredPost =>
    (* [filteredPost?.creatorId.toString()] is [undefined] on [null], and no
       string is [undefined] *)
    if bool_decide (Some (userId req) ≠ (p_creatorId ∘ fields) <$> filteredPost) then
      mret (next (HttpError "This isn't your post!" "401"))
    else
    filteredPost ← deref filteredPost;
    let stored := fields filteredPost in
    r ← (if bool_decide (p_address stored ≠ address req) then
           try_catch (
             coordinates ← geocode (address req);
             mret (mkDoc (_id filteredPost)
                     {| p_title := title req;
                        p_description := description req;
                        p_creatorId := p_creatorId stored;
                        p_address := address req;
                        p_coordinates := coordinates;
                        p_createDate := p_createDate stored;
                        p_image := p_image stored;
                        p_comments := p_comments stored |}))
         else
           mret (Return (mkDoc (_id filteredPost)
                     {| p_title := title req;
                        p_description := description req;
                        p_creatorId := p_creatorId stored;
                        p_address := p_address stored;
                        p_coordinates := p_coordinates stored;
                        p_createDate := p_createDate stored;
                        p_image := p_image stored;
                        p_comments := p_comments stored |})));
    match r with
    | Throw error =>
        mret (next (HttpError "An error occured translating location, please try again." "500"))
    | Return filteredPost =>
    r ← try_catch (PostModel_save_now filteredPost);
    match r with
    | Throw err =>
        mret (next (HttpError "A communication error occured, please try again." "500"))
    | Return _ =>
        mret (json 200 (PostBody filteredPost))
    end end end).

(** [creatorId.posts.pull(filteredPost)]: every entry equal to the post's
    identifier leaves the array. *)
Definition pull (id : ObjectId) (l : list ObjectId) : list ObjectId :=
  filter (λ x, x ≠ id) l.

Definition deletePost (req : Request) : World → Response * World :=
  handle (
    let postId := pid req in
    r ← try_catch (PostModel_findById_populate postId);
    match r with
    | Throw err =>
        mret (next (HttpError "A communication error occured, please try again." "500"))
    | Return None =>
        mret (next (HttpError "Could not find a matching post ID." "404"))
    | Return (Some (filteredPost, creatorId)) =>
    (* [filteredPost.creatorId.id], outside every [try] *)
    creator ← deref creatorId;
    if bool_decide (_id creator ≠ userId req) then
      mret (next (HttpError "This isn't your post!" "401"))
    else
    r ← try_catch (
      startSession;;
      deleteSession ← mret startTransaction;
      deleteSession ← PostModel_remove filteredPost deleteSession;
      let creator := mkDoc (_id creator)
                       (mkUser (pull (_id filteredPost) (u_posts (fields creator)))
                               (u_comments (fields creator))) in
      deleteSession ← UserModel_save creator deleteSession;
      commitTransaction deleteSession);
    match r with
    | Throw err =>
        mret (next (HttpError "A communication error occured, please try again." "500"))
    | Return _ =>
        mret (json 200 (MessageBody "deleted post"))
    end end).

Definition createComment (req : Request) : World → Response * World :=
  handle (
    if negb (validation_ok req) then
      mret (next (HttpError "Invalid Inputs, Please check inputs" "422"))
    else
    let createdComment :=
      mkDoc (newObjectId env)
        {| c_creatorId := userId req;
           c_createDate := now env;
           c_comment := comment req;
           c_post := postId req |} in
    r ← try_catch (UserModel_findById (userId req));
    match r with
    | Throw err =>
        mret (next (HttpError "Could not find your userID, please try again" "404"))
    | Return user =>
    r ← try_catch (PostModel_findById (postId req));
    match r with
    | Throw err =>
        mret (next (HttpError "Could not find that post" "404"))
    | Return post =>
    r ← try_catch (
      startSession;;
      commentSession ← mret startTransaction;
      commentSession ← CommentModel_save_new createdComment commentSession;
      user ← deref user;
      let user := mkDoc (_id user)
                    (mkUser (u_posts (fields user))
                            (u_comments (fields user) ++ [_id createdComment])) in
      commentSession ← UserModel_save user commentSession;
      post ← deref post;
      let stored := fields post in
      let post := mkDoc (_id post)
                    {| p_title := p_title stored;
                       p_description := p_description stored;
                       p_creatorId := p_creatorId stored;
                       p_address := p_address stored;
                       p_coordinates := p_coordinates stored;
                       p_createDate := p_createDate stored;
                       p_image := p_image stored;
                       p_comments := p_comments stored ++ [_id createdComment] |} in
      commentSession ← PostModel_save post commentSession;
      commitTransaction commentSession);
    match r with
    | Throw err =>
        mret (next (HttpError "A communication error occured, please try again." "500"))
    | Return _ =>
        mret (json 201 (CommentBody createdComment))
    end end end).

End Controllers.

(** ** Notions used in the statements *)

(** The four mutating operations of the consistency layer. *)
Inductive Operation := CreatePost | EditPost | DeletePost | CreateComment.

Definition perform (op : Operation) : Env → Request → World → Response * World :=
  match op with
  | CreatePost => createPost
  | EditPost => editPost
  | DeletePost => deletePost
  | CreateComment => createComment
  end.

(** The calls a request made: the part of the trace it added. *)
Definition calls_since (w w' : World) : list Event :=
  drop (length (trace w)) (trace w').

Definition geocoder_calls (w w' : World) : list Event :=
  filter (λ e, is_geocode e) (calls_since w w').

(** What an edit that keeps the address writes: the stored post with a new
    title and description, every other field as stored. *)
Definition with_title_description (t d : string) (p : Post) : Post :=
  {| p_title := t;
     p_description := d;
     p_creatorId := p_creatorId p;
     p_address := p_address p;
     p_coordinates := p_coordinates p;
     p_createDate := p_createDate p;
     p_image := p_image p;
     p_comments := p_comments p |}.

(** What [createComment] writes for the target post: the stored post with one
    more entry at the end of its comment list. *)
Definition with_comment (c : ObjectId) (p : Post) : Post :=
  {| p_title := p_title p;
     p_description := p_description p;
     p_creatorId := p_creatorId p;
     p_address := p_address p;
     p_coordinates := p_coordinates p;
     p_createDate := p_createDate p;
     p_image := p_image p;
     p_comments := p_comments p ++ [c] |}.

(** The order the feed is documented to have: no post is older than one that
    follows it. *)
Definition newest_first (ds : list (Doc Post)) : Prop :=
  StronglySorted (λ a b, createDate_le b a) ds.

Definition occurrences (id : ObjectId) (l : list ObjectId) : nat :=
  length (filter (λ x, x = id) l).

(** Section 3, the comment lists: an identifier in a user's or a post's
    comment list is the key of a stored comment. *)
Definition comment_refs_closed (s : Store) : Prop :=
  map_Forall (λ _ u, Forall (λ c, is_Some (comments s !! c)) (u_comments u)) (users s)
  ∧ map_Forall (λ _ p, Forall (λ c, is_Some (comments s !! c)) (p_comments p)) (posts s).

(** Section 3, the post lists: a user lists only stored posts it created. *)
Definition lists_own_posts (s : Store) : Prop :=
  map_Forall
    (λ uid u, Forall (λ id, p_creatorId <$> (posts s !! id) = Some uid) (u_posts u))
    (users s).

(** ... and every stored post is listed by the user that created it. *)
Definition listed_by_creator (s : Store) : Prop :=
  map_Forall
    (λ id p, id ∈ default [] (u_posts <$> (users s !! p_creatorId p)))
    (posts s).

Definition backrefs_consistent (s : Store) : Prop :=
  lists_own_posts s ∧ listed_by_creator s.

Instance comment_refs_closed_dec s : Decision (comment_refs_closed s).
Proof. unfold comment_refs_closed. apply _. Defined.

Instance backrefs_consistent_dec s : Decision (backrefs_consistent s).
Proof. unfold backrefs_consistent, lists_own_posts, listed_by_creator. apply _. Defined.

(** ** Sample data *)

(** Identifiers, in the 24-digit hexadecimal form of an ObjectId.  No user is
    stored under [ghost_user] and no post under [ghost_post]; [fresh_id] is
    the identifier the next document gets. *)
Definition user1 : ObjectId := "650000000000000000000001".
Definition user2 : ObjectId := "650000000000000000000002".
Definition ghost_user : ObjectId := "650000000000000000000009".
Definition post1 : ObjectId := "650000000000000000000101".
Definition post2 : ObjectId := "650000000000000000000102".
Definition ghost_post : ObjectId := "650000000000000000000109".
Definition comment1 : ObjectId := "650000000000000000000201".
Definition fresh_id : ObjectId := "650000000000000000000301".

Definition home : Coordinates := mkCoordinates 40000000 (-74000000).

(** A geocoder that knows every address but one. *)
Definition sample_geocoder (a : string) : option Coordinates :=
  if String.eqb a "nowhere" then None else Some home.

Definition cabin : Post :=
  {| p_title := "Cabin"; p_description := "By the lake"; p_creatorId := user1;
     p_address := "123 Main St"; p_coordinates := home; p_createDate := 1000;
     p_image := None; p_comments := [comment1] |}.

Definition pier : Post :=
  {| p_title := "Pier"; p_description := "At dusk"; p_creatorId := user2;
     p_address := "7 Harbour Rd"; p_coordinates := home; p_createDate := 2000;
     p_image := None; p_comments := [] |}.

(** Two users, each with one post; [user2] has commented on the post of
    [user1]. *)
Definition sample_store : Store :=
  {| users := {[ user1 := mkUser [post1] []; user2 := mkUser [post2] [comment1] ]};
     posts := {[ post1 := cabin; post2 := pier ]};
     comments := {[ comment1 := mkComment user2 1500 "Lovely" post1 ]} |}.

Definition sample_world : World := mkWorld sample_store [].

(** Every store call answers. *)
Definition healthy_env : Env := mkEnv sample_geocoder (λ _, false) 3000 fresh_id.

(** Every store call answers but the save of a user. *)
Definition user_save_fails_env : Env :=
  mkEnv sample_geocoder
    (λ op, match op with UserSave _ => true | _ => false end) 3000 fresh_id.

Definition sample_request (user target addr : string) : Request :=
  {| validation_ok := true; userId := user; pid := target;
     title := "Hut"; description := "In the hills"; address := addr;
     comment := "Lovely"; postId := target; file_location := None |}.

(** ** The read handlers

    [getPostById], [getPostsByUserId] and [getComments] answer from the store
    and write nothing.  The first uses [findById]; the other two scan a
    collection with a filter. *)

(** The two filtered scans. *)
Inductive ScanOp :=
| PostFindByCreator (creatorId : ObjectId)   (* PostModel.find({ creatorId }) *)
| CommentFindByPost (post : ObjectId).       (* CommentModel.find({ post }).populate(..) *)

(** The one part of [req] that [getPostsByUserId] reads. *)
Record UserPostsRequest := mkUserPostsRequest {
  uid : ObjectId                     (* req.params.uid *)
}.

(** A comment with the user its [creatorId] refers to in place of the
    identifier ([null] when there is no such user). *)
Abbreviation PopulatedComment := (Doc Comment * option (Doc User))%type (only parsing).

(** What [getComments] sends: [{ message: null }] or the comments. *)
Inductive CommentsBody :=
| NoComments
| Comments (cs : list PopulatedComment).

(** How [getComments] ends, in the manner of [Response]. *)
Inductive CommentsResponse :=
| comments_next (e : Thrown)
| comments_json (status : nat) (b : CommentsBody)
| comments_unhandled (e : Thrown).

Definition handle_comments (m : Async CommentsResponse) (w : World)
  : CommentsResponse * World :=
  match m w with
  | (Return r, w') => (r, w')
  | (Throw e, w') => (comments_unhandled e, w')
  end.

Definition all_comments (s : Store) : list (Doc Comment) :=
  (λ kv, mkDoc kv.1 kv.2) <$> map_to_list (comments s).

Section Readers.

Context (env : Env).

(** [scan_rejects op] says that the scan [op] rejects (the store is
    unreachable, the filter value does not cast to an ObjectId). *)
Context (scan_rejects : ScanOp → bool).

(** A scan answers from the store as it is and leaves the world as it found
    it; the trace keeps the calls of the handlers above only. *)
Definition scan {A} (op : ScanOp) (f : Store → A) : Async A :=
  λ w, if scan_rejects op then (Throw MongoError, w) else (Return (f (db w)), w).

(** [PostModel.find({ creatorId })]: the posts whose [creatorId] is the one
    given. *)
Definition PostModel_find_creatorId (creatorId : ObjectId) : Async (list (Doc Post)) :=
  scan (PostFindByCreator creatorId)
    (λ s, filter (λ d, p_creatorId (fields d) = creatorId) (all_posts s)).

(** [CommentModel.find({ post }).populate("creatorId")]: the comments whose
    [post] is the one given, each with its creator. *)
Definition CommentModel_find_post_populate (post : ObjectId)
  : Async (list PopulatedComment) :=
  scan (CommentFindByPost post)
    (λ s, (λ d, (d, doc_at (users s) (c_creatorId (fields d))))
            <$> filter (λ d, c_post (fields d) = post) (all_comments s)).

Definition getPostById (req : Request) : World → Response * World :=
  handle (
    let postId := pid req in
    r ← try_catch (
      filteredPosts ← PostModel_findById env postId;
      (* [filteredPosts!.toObject(..)], inside the [try] *)
      filteredPosts ← deref filteredPosts;
      mret (json 200 (PostBody filteredPosts)));
    match r with
    | Return res => mret res
    | Throw err =>
        mret (next (HttpError "Could not find a post for the provided id." "404"))
    end).

Definition getPostsByUserId (req : UserPostsRequest) : World → Response * World :=
  handle (
    let creatorId := uid req in
    r ← try_catch (PostModel_find_creatorId creatorId);
    match r with
    | Throw err =>
        mret (next (HttpError "A communication error occured, please try again." "500"))
    | Return filteredPosts =>
    if bool_decide (length filteredPosts = 0%nat) then
      mret (next (HttpError "Could not find any posts for the provided user." "404"))
    else
      mret (json 200 (PostsBody filteredPosts))
    end).

Definition getComments (req : Request) : World → CommentsResponse * World :=
  handle_comments (
    let post := pid req in
    r ← try_catch (CommentModel_find_post_populate post);
    match r with
    | Throw err =>
        mret (comments_next
                (HttpError "A communication error occured, please try again." "500"))
    | Return comments =>
    if bool_decide (length comments = 0%nat) then
      mret (comments_json 200 NoComments)
    else
      mret (comments_json 200 (Comments comments))
    end).

End Readers.

(** ** Sequences of operations *)

(** One request to the consistency layer: the operation, what its
    collaborators answer, and the request. *)
Record Call := mkCall {
  call_op : Operation;
  call_env : Env;
  call_req : Request
}.

(** The world after the requests have been served one after the other. *)
Definition serve (calls : list Call) (w : World) : World :=
  foldl (λ w c, (perform (call_op c) (call_env c) (call_req c) w).2) w calls.

(** Every scan answers. *)
Definition healthy_scans : ScanOp → bool := λ _, false.

(** The posts a response carries, if it carries posts. *)
Definition feed_of (r : Response) : list (Doc Post) :=
  match r with
  | json _ (PostsBody ds) => ds
  | _ => []
  end.

(** Fifty posts of one user, created at times 0 to 49. *)
Definition archive_id (n : nat) : ObjectId :=
  "6500000000000000000000"
  +:+ String (Ascii.ascii_of_nat (48 + n / 10))
        (String (Ascii.ascii_of_nat (48 + n mod 10)) "").

Definition archive_post (n : nat) : Post :=
  {| p_title := "Archive"; p_description := "Old"; p_creatorId := user1;
     p_address := "123 Main St"; p_coordinates := home;
     p_createDate := Z.of_nat n; p_image := None; p_comments := [] |}.

Definition crowded_store : Store :=
  {| users := {[ user1 := mkUser (archive_id <$> seq 0 50) [] ]};
     posts := list_to_map ((λ n, (archive_id n, archive_post n)) <$> seq 0 50);
     comments := ∅ |}.

Definition crowded_world : World := mkWorld crowded_store [].

(** ** Symbolic execution of a handler

    [run] unfolds a handler down to the answers of its collaborators;
    [step] then splits on one of those answers and [tidy] reduces what the
    split decided. *)

Ltac run :=
  cbv [createPost editPost deletePost createComment getFeed handle mbind mret
       Async_bind Async_ret async_bind async_ret try_catch throw deref geocode
       store_call query stage stage_insert record doc_at
       UserModel_findById PostModel_findById PostModel_findById_populate
       PostModel_find_sort_limit startSession startTransaction
       PostModel_save_new CommentModel_save_new UserModel_save PostModel_save
       PostModel_remove commitTransaction PostModel_save_now].

Ltac tidy :=
  cbv beta iota zeta;
  cbn [negb fmap option_fmap option_map compose db trace fst snd _id fields
       succeeded error_kind].

Ltac step :=
  match goal with
  | |- context [negb (validation_ok ?r)] =>
      destruct (validation_ok r) eqn:?
  | |- context [match getCoordsFromAddress ?e ?a with _ => _ end] =>
      destruct (getCoordsFromAddress e a) eqn:?
  | |- context [if rejects ?e ?op then _ else _] =>
      destruct (rejects e op) eqn:?
  | |- context [?f <$> (?m !! ?k)] =>
      destruct (m !! k) eqn:?
  | |- context [match ?m !! ?k with _ => _ end] =>
      destruct (m !! k) eqn:?
  | |- context [bool_decide ?P] =>
      destruct (bool_decide_reflect P)
  end; tidy.

Ltac stable :=
  repeat match goal with
         | H : ¬ (_ ≠ _) |- _ => apply dec_stable in H
         end.

Ltac steps := repeat (step; stable; simplify_eq; try done; try congruence).

(** *** Shielded execution

    For a statement that itself speaks of lookups and decisions. *)

(** [shield t] hides the statement around the run [t] of a handler, so that
    symbolic execution splits on the handler's own tests only. *)
Ltac shield t :=
  pattern t;
  match goal with
  | |- ?P _ => let Q := fresh "Q" in set (Q := P)
  end.

Ltac unshield :=
  match goal with
  | Q := _ |- _ => subst Q; cbv beta
  end.

(** Two answers to one question that disagree. *)
Ltac clash :=
  match goal with
  | H1 : ?t = true, H2 : ?t = false |- _ => rewrite H1 in H2; discriminate H2
  | H1 : ?t = Some _, H2 : ?t = None |- _ => rewrite H1 in H2; discriminate H2
  | H : ?a ≠ ?a |- _ => destruct (H eq_refl)
  | H : ?a ≠ ?b, H' : ?a = ?b |- _ => destruct (H H')
  | H : ?a ≠ ?b, H' : ?b = ?a |- _ => destruct (H (eq_sym H'))
  end.

(** [step] for a shielded statement.  A decided proposition is split on the
    very term the handler holds, so that the split always settles it. *)
Ltac probe :=
  match goal with
  | |- context [negb (validation_ok ?r)] =>
      destruct (validation_ok r) eqn:?
  | |- context [match getCoordsFromAddress ?e ?a with _ => _ end] =>
      destruct (getCoordsFromAddress e a) eqn:?
  | |- context [if rejects ?e ?op then _ else _] =>
      destruct (rejects e op) eqn:?
  | |- context [?f <$> (?m !! ?k)] =>
      destruct (m !! k) eqn:?
  | |- context [match ?m !! ?k with _ => _ end] =>
      destruct (m !! k) eqn:?
  | |- context [@bool_decide ?P ?d] =>
      let Hb := fresh "Hb" in
      destruct (@bool_decide P d) eqn:Hb;
      [apply bool_decide_eq_true_1 in Hb | apply bool_decide_eq_false_1 in Hb]
  end; tidy.

(** Every path of the handler is kept, but for those whose tests disagree. *)
Ltac explore := repeat (probe; stable; simplify_eq; try clash).

(** Closes a path whose facts are settled: hypotheses are taken apart and
    the impossible ones found. *)
Ltac leaf :=
  repeat match goal with
         | H : is_Some None |- _ => destruct H as [? H]; discriminate H
         | H : _ ∧ _ |- _ => destruct H
         | H : _ ∨ _ |- _ => destruct H
         | H : ∃ _, _ |- _ => destruct H
         | H : _ = _ |- _ => discriminate H
         end.

Ltac run_reads :=
  cbv [getPostById getPostsByUserId getComments handle_comments scan
       PostModel_find_creatorId CommentModel_find_post_populate];
  run.

(** What a request added to the trace, left as a plain list. *)
Ltac traces :=
  unfold geocoder_calls, calls_since; cbn [db trace snd];
  rewrite <- ?(assoc_L (++)), ?drop_app_length, ?drop_all.

Ltac kinds :=
  repeat match goal with
         | |- context [kind_of_thrown ?e] =>
             let v := eval vm_compute in (kind_of_thrown e) in
             change (kind_of_thrown e) with v
         end.

(** ** Successful writes

    What the store holds after each multi-document operation has answered
    with a success response: the whole transaction, and nothing else. *)

Lemma createPost_success env req w out :
  out = createPost env req w →
  succeeded out.1 = true →
  ∃ user c,
    users (db w) !! userId req = Some user
    ∧ posts (db w) !! newObjectId env = None
    ∧ getCoordsFromAddress env (address req) = Some c
    ∧ db out.2 =
      {| users := <[userId req := mkUser (u_posts user ++ [newObjectId env])
                                         (u_comments user)]> (users (db w));
         posts := <[newObjectId env :=
                      mkPost (title req) (description req) (userId req)
                             (address req) c (now env) (file_location req) []]>
                    (posts (db w));
         comments := comments (db w) |}.
Proof.
  run; tidy; steps; intros -> Hok; try discriminate Hok.
  eexists _, _. repeat split; try done.
Qed.

Lemma deletePost_success env req w out :
  out = deletePost env req w →
  succeeded out.1 = true →
  ∃ post owner,
    posts (db w) !! pid req = Some post
    ∧ p_creatorId post = userId req
    ∧ users (db w) !! p_creatorId post = Some owner
    ∧ db out.2 =
      {| users := <[p_creatorId post := mkUser (pull (pid req) (u_posts owner))
                                               (u_comments owner)]> (users (db w));
         posts := delete (pid req) (posts (db w));
         comments := comments (db w) |}.
Proof.
  run; tidy; steps; intros -> Hok; try discriminate Hok.
  eexists _, _. repeat split; try done.
Qed.

Lemma createComment_success env req w out :
  out = createComment env req w →
  succeeded out.1 = true →
  ∃ user post,
    users (db w) !! userId req = Some user
    ∧ posts (db w) !! postId req = Some post
    ∧ comments (db w) !! newObjectId env = None
    ∧ db out.2 =
      {| users := <[userId req := mkUser (u_posts user)
                                         (u_comments user ++ [newObjectId env])]>
                    (users (db w));
         posts := <[postId req := with_comment (newObjectId env) post]> (posts (db w));
         comments := <[newObjectId env :=
                         mkComment (userId req) (now env) (comment req) (postId req)]>
                       (comments (db w)) |}.
Proof.
  run; tidy; steps; intros -> Hok; try discriminate Hok.
  eexists _, _. repeat split; try done.
Qed.

(** ** Lists and invariants *)

Lemma occurrences_absent id l : id ∉ l → occurrences id l = 0%nat.
Proof.
  unfold occurrences. induction l as [|x l IH]; intros Hnotin; [done|].
  rewrite filter_cons_False by set_solver. apply IH. set_solver.
Qed.

Lemma occurrences_snoc_fresh id l : id ∉ l → occurrences id (l ++ [id]) = 1%nat.
Proof.
  intros Hfresh. pose proof (occurrences_absent id l Hfresh) as Hzero.
  unfold occurrences in *.
  rewrite filter_app, length_app, Hzero. by rewrite filter_cons_True.
Qed.

Lemma elem_of_pull id x l : x ∈ pull id l ↔ x ≠ id ∧ x ∈ l.
Proof. unfold pull. by rewrite list_elem_of_filter. Qed.

Lemma lists_own_posts_lookup s :
  lists_own_posts s ↔
  ∀ uid u id, users s !! uid = Some u → id ∈ u_posts u →
    ∃ p, posts s !! id = Some p ∧ p_creatorId p = uid.
Proof.
  unfold lists_own_posts. rewrite map_Forall_lookup. split.
  - intros Hinv uid u id Hu Hin. specialize (Hinv uid u Hu).
    rewrite Forall_forall in Hinv. specialize (Hinv id Hin).
    destruct (posts s !! id) as [p|]; simplify_eq/=. eauto.
  - intros Hinv uid u Hu. apply Forall_forall. intros id Hin.
    destruct (Hinv uid u id Hu Hin) as (p & -> & <-). done.
Qed.

Lemma listed_by_creator_lookup s :
  listed_by_creator s ↔
  ∀ id p, posts s !! id = Some p →
    ∃ u, users s !! p_creatorId p = Some u ∧ id ∈ u_posts u.
Proof.
  unfold listed_by_creator. rewrite map_Forall_lookup. split.
  - intros Hinv id p Hp. specialize (Hinv id p Hp).
    destruct (users s !! p_creatorId p) as [u|]; cbn in Hinv; [eauto|].
    by apply elem_of_nil in Hinv.
  - intros Hinv id p Hp. destruct (Hinv id p Hp) as (u & -> & Hin). done.
Qed.

Lemma comment_refs_closed_user s uid u c :
  comment_refs_closed s → users s !! uid = Some u → c ∈ u_comments u →
  is_Some (comments s !! c).
Proof.
  intros [Hinv _] Hu Hin. specialize (Hinv uid u Hu).
  rewrite Forall_forall in Hinv. by apply Hinv.
Qed.

Lemma comment_refs_closed_post s id p c :
  comment_refs_closed s → posts s !! id = Some p → c ∈ p_comments p →
  is_Some (comments s !! c).
Proof.
  intros [_ Hinv] Hp Hin. specialize (Hinv id p Hp).
  rewrite Forall_forall in Hinv. by apply Hinv.
Qed.

(** Inserting a post under a fresh identifier and appending the identifier to
    its creator's list keeps the two directions of the back-references. *)
Lemma backrefs_insert_post s uid user id post :
  backrefs_consistent s →
  users s !! uid = Some user →
  posts s !! id = None →
  p_creatorId post = uid →
  backrefs_consistent
    {| users := <[uid := mkUser (u_posts user ++ [id]) (u_comments user)]> (users s);
       posts := <[id := post]> (posts s);
       comments := comments s |}.
Proof.
  intros [Hown Hlisted] Huser Hfresh Hcreator.
  rewrite lists_own_posts_lookup in Hown.
  rewrite listed_by_creator_lookup in Hlisted.
  split.
  - apply lists_own_posts_lookup. cbn. intros uid' u' id' Hu' Hin.
    destruct (decide (uid' = uid)) as [->|Hne].
    + rewrite lookup_insert_eq in Hu'. simplify_eq/=.
      apply elem_of_app in Hin as [Hin|Hin%list_elem_of_singleton].
      * destruct (Hown _ _ _ Huser Hin) as (p & Hp & Hc).
        exists p. rewrite lookup_insert_ne by congruence. done.
      * subst id'. rewrite lookup_insert_eq. eauto.
    + rewrite lookup_insert_ne in Hu' by done.
      destruct (Hown _ _ _ Hu' Hin) as (p & Hp & Hc).
      exists p. rewrite lookup_insert_ne by congruence. done.
  - apply listed_by_creator_lookup. cbn. intros id' p Hp.
    destruct (decide (id' = id)) as [->|Hne].
    + rewrite lookup_insert_eq in Hp. simplify_eq/=.
      rewrite lookup_insert_eq. eexists; split; [done|]. set_solver.
    + rewrite lookup_insert_ne in Hp by done.
      destruct (Hlisted _ _ Hp) as (u & Hu & Hin).
      destruct (decide (p_creatorId p = uid)) as [Heq|Hother].
      * rewrite Heq in *. rewrite lookup_insert_eq. simplify_eq.
        eexists; split; [done|]. set_solver.
      * rewrite lookup_insert_ne by done. eauto.
Qed.

(** Removing a post and pulling its identifier from its creator's list keeps
    them too. *)
Lemma backrefs_remove_post s id post owner :
  backrefs_consistent s →
  posts s !! id = Some post →
  users s !! p_creatorId post = Some owner →
  backrefs_consistent
    {| users := <[p_creatorId post := mkUser (pull id (u_posts owner)) (u_comments owner)]>
                  (users s);
       posts := delete id (posts s);
       comments := comments s |}.
Proof.
  intros [Hown Hlisted] Hpost Howner.
  rewrite lists_own_posts_lookup in Hown.
  rewrite listed_by_creator_lookup in Hlisted.
  split.
  - apply lists_own_posts_lookup. cbn. intros uid' u' id' Hu' Hin.
    destruct (decide (uid' = p_creatorId post)) as [->|Hne].
    + rewrite lookup_insert_eq in Hu'. simplify_eq/=.
      apply elem_of_pull in Hin as [Hid Hin].
      destruct (Hown _ _ _ Howner Hin) as (p & Hp & Hc).
      exists p. rewrite lookup_delete_ne by done. done.
    + rewrite lookup_insert_ne in Hu' by done.
      destruct (Hown _ _ _ Hu' Hin) as (p & Hp & Hc).
      exists p. rewrite lookup_delete_ne; [done|].
      intros <-. simplify_eq.
  - apply listed_by_creator_lookup. cbn. intros id' p Hp.
    apply lookup_delete_Some in Hp as [Hne Hp].
    destruct (Hlisted _ _ Hp) as (u & Hu & Hin).
    destruct (decide (p_creatorId p = p_creatorId post)) as [Heq|Hother].
    + rewrite Heq in *. rewrite lookup_insert_eq. simplify_eq.
      eexists; split; [done|]. apply elem_of_pull. done.
    + rewrite lookup_insert_ne by done. eauto.
Qed.

(** ** Ordering of the feed *)

Instance createDate_le_total : Total createDate_le.
Proof. intros a b. unfold createDate_le. lia. Qed.

Instance createDate_le_transitive : Transitive createDate_le.
Proof. intros a b c. unfold createDate_le. lia. Qed.

(** ** Properties *)

(** C1: each mutating operation is all-or-nothing.  Whatever the store, the
    request and the collaborators' answers, an operation that does not end in
    a success response leaves the committed store exactly as it found it; in
    particular a [createPost] whose save of the owning user rejects does not
    succeed and leaves the post collection as it was. *)
Theorem mutations_all_or_nothing op env req w :
  (succeeded (perform op env req w).1 = false →
   db (perform op env req w).2 = db w)
  ∧ (op = CreatePost → rejects env (UserSave (userId req)) = true →
     succeeded (perform op env req w).1 = false
     ∧ posts (db (perform op env req w).2) = posts (db w)).
Proof.
  split.
  - destruct op; cbn [perform]; run; tidy; steps.
  - intros -> Hsave. cbn [perform]. run; tidy; steps.
Qed.

(** The user save rejects after the post has been saved under the
    transaction: the request fails and no post has appeared. *)
Lemma mutations_all_or_nothing_witness :
  calls_since sample_world
    (createPost user_save_fails_env (sample_request user1 "" "9 Hill Rd") sample_world).2
  = [Geocode "9 Hill Rd"; Db (UserFindById user1); Db StartSession;
     Db (PostSave fresh_id); Db (UserSave user1)]
  ∧ db (createPost user_save_fails_env (sample_request user1 "" "9 Hill Rd") sample_world).2
    = db sample_world
  ∧ succeeded
      (createPost user_save_fails_env (sample_request user1 "" "9 Hill Rd") sample_world).1
    = false
  ∧ posts (db (createPost user_save_fails_env (sample_request user1 "" "9 Hill Rd") sample_world).2)
    = posts (db sample_world).
Proof.
  split; [vm_compute; reflexivity|].
  split.
  - apply (proj1 (mutations_all_or_nothing CreatePost user_save_fails_env
                    (sample_request user1 "" "9 Hill Rd") sample_world)).
    vm_compute; reflexivity.
  - apply (proj2 (mutations_all_or_nothing CreatePost user_save_fails_env
                    (sample_request user1 "" "9 Hill Rd") sample_world));
      reflexivity.
Defined.

(** C2, as the code has it: [UserModel.findById] resolves to [null] for an
    identifier that no user has, it does not reject, so the 404 of the [catch]
    is not reached; the [null] is dereferenced inside the transaction's [try]
    and the request ends in the 500 of that [catch] (the StoreError kind, not
    NotFound).  The store is left unchanged. *)
Theorem createPost_absent_user_is_store_error env req w c :
  validation_ok req = true →
  getCoordsFromAddress env (address req) = Some c →
  rejects env (UserFindById (userId req)) = false →
  users (db w) !! userId req = None →
  (createPost env req w).1
    = next (HttpError "A communication error occured, please try again." "500")
  ∧ error_kind (createPost env req w).1 = Some StoreError
  ∧ db (createPost env req w).2 = db w.
Proof.
  intros Hvalid Hgeo Hfind Habsent. run; tidy; steps.
Qed.

Lemma createPost_absent_user_witness :
  (createPost healthy_env (sample_request ghost_user "" "9 Hill Rd") sample_world).1
    = next (HttpError "A communication error occured, please try again." "500")
  ∧ error_kind (createPost healthy_env (sample_request ghost_user "" "9 Hill Rd") sample_world).1
    = Some StoreError
  ∧ db (createPost healthy_env (sample_request ghost_user "" "9 Hill Rd") sample_world).2
    = db sample_world.
Proof.
  apply (createPost_absent_user_is_store_error healthy_env
           (sample_request ghost_user "" "9 Hill Rd") sample_world home);
    vm_compute; reflexivity.
Defined.

(** C3, as the code has it: [PostModel.findById] resolves to [null] for an
    identifier that no post has, and [filteredPost?.creatorId.toString()] is
    then [undefined], which differs from every requester: the request ends in
    the 401 (the Unauthorized kind, not NotFound).  Nothing is written. *)
Theorem editPost_absent_post_is_unauthorized env req w :
  validation_ok req = true →
  rejects env (PostFindById (pid req)) = false →
  posts (db w) !! pid req = None →
  (editPost env req w).1 = next (HttpError "This isn't your post!" "401")
  ∧ error_kind (editPost env req w).1 = Some Unauthorized
  ∧ db (editPost env req w).2 = db w.
Proof.
  intros Hvalid Hfind Habsent. run; tidy; steps.
Qed.

Lemma editPost_absent_post_witness :
  (editPost healthy_env (sample_request user1 ghost_post "9 Hill Rd") sample_world).1
    = next (HttpError "This isn't your post!" "401")
  ∧ error_kind (editPost healthy_env (sample_request user1 ghost_post "9 Hill Rd") sample_world).1
    = Some Unauthorized
  ∧ db (editPost healthy_env (sample_request user1 ghost_post "9 Hill Rd") sample_world).2
    = db sample_world.
Proof.
  apply (editPost_absent_post_is_unauthorized healthy_env
           (sample_request user1 ghost_post "9 Hill Rd") sample_world);
    vm_compute; reflexivity.
Defined.

(** C4, as the code has it: [sort({ createDate: 1 })] is ascending, so the
    feed starts with the oldest post, against the comment above the query
    ("newest created first").  On the sample store the post of time 1000
    comes before the post of time 2000, and the feed is not newest-first. *)
Theorem getFeed_oldest_first :
  (getFeed healthy_env (sample_request user1 "" "") sample_world).1
    = json 200 (PostsBody [mkDoc post1 cabin; mkDoc post2 pier])
  ∧ p_createDate cabin < p_createDate pier
  ∧ ¬ newest_first [mkDoc post1 cabin; mkDoc post2 pier].
Proof.
  split; [vm_compute; reflexivity|]. split; [reflexivity|].
  intros Hsorted. apply StronglySorted_inv in Hsorted as [_ Hfirst].
  apply Forall_inv in Hfirst. unfold createDate_le in Hfirst. cbn in Hfirst. lia.
Qed.

(** X1: whenever the query answers, the feed is a selection of at most 50
    stored posts in which no post is newer than one that follows it, and the
    store is left as it was. *)
Lemma getFeed_ascending env req w :
  rejects env PostFind = false →
  ∃ feed,
    (getFeed env req w).1 = json 200 (PostsBody feed)
    ∧ StronglySorted createDate_le feed
    ∧ (length feed ≤ 50)%nat
    ∧ (∀ d, d ∈ feed → posts (db w) !! _id d = Some (fields d))
    ∧ db (getFeed env req w).2 = db w.
Proof.
  intros Hfind. run; tidy. rewrite Hfind. tidy.
  eexists. split_and!; try done.
  - apply (StronglySorted_app_1_l _ _ (drop 50 (sort_createDate_asc (all_posts (db w))))).
    rewrite take_drop. apply StronglySorted_merge_sort; apply _.
  - rewrite length_take. lia.
  - intros d Hin. apply (subseteq_take 50) in Hin.
    unfold sort_createDate_asc in Hin. rewrite merge_sort_Permutation in Hin.
    apply list_elem_of_fmap in Hin as ([k p] & -> & Hin).
    by apply elem_of_map_to_list in Hin.
Qed.

Lemma getFeed_ascending_witness :
  ∃ feed,
    (getFeed healthy_env (sample_request user1 "" "") sample_world).1
      = json 200 (PostsBody feed)
    ∧ StronglySorted createDate_le feed
    ∧ (length feed ≤ 50)%nat
    ∧ (∀ d, d ∈ feed → posts (db sample_world) !! _id d = Some (fields d))
    ∧ db (getFeed healthy_env (sample_request user1 "" "") sample_world).2
      = db sample_world.
Proof.
  apply (getFeed_ascending healthy_env (sample_request user1 "" "") sample_world).
  reflexivity.
Defined.

(** C5: on a stored post, an edit whose address equals the stored address
    never calls the geocoder, and the store it leaves is either the store as
    it was or that store with the post's title and description replaced and
    every other field of the post (address and coordinates among them) as
    stored; the latter is what a successful edit leaves.  An edit that
    reaches the address test (a validated request by the post's creator,
    answered by the lookup) with a different address calls the geocoder
    exactly once, for the new address, and when that call rejects the request
    ends in the translating-location 500 (the GeocodeError kind) with the
    store, hence the post's title, description, address and coordinates,
    unchanged. *)
Theorem editPost_regeocodes_on_change env req w post :
  posts (db w) !! pid req = Some post →
  (p_address post = address req →
     geocoder_calls w (editPost env req w).2 = []
     ∧ (db (editPost env req w).2 = db w
        ∨ db (editPost env req w).2
          = mkStore (users (db w))
              (<[pid req := with_title_description (title req) (description req) post]>
                 (posts (db w)))
              (comments (db w)))
     ∧ (succeeded (editPost env req w).1 = true →
        (editPost env req w).1
          = json 200 (PostBody (mkDoc (pid req)
              (with_title_description (title req) (description req) post)))
        ∧ db (editPost env req w).2
          = mkStore (users (db w))
              (<[pid req := with_title_description (title req) (description req) post]>
                 (posts (db w)))
              (comments (db w))))
  ∧ (p_address post ≠ address req →
     validation_ok req = true →
     rejects env (PostFindById (pid req)) = false →
     p_creatorId post = userId req →
     geocoder_calls w (editPost env req w).2 = [Geocode (address req)]
     ∧ (getCoordsFromAddress env (address req) = None →
        (editPost env req w).1
          = next (HttpError "An error occured translating location, please try again." "500")
        ∧ error_kind (editPost env req w).1 = Some GeocodeError
        ∧ db (editPost env req w).2 = db w
        ∧ posts (db (editPost env req w).2) !! pid req = Some post)).
Proof.
  intros Hpost. unfold geocoder_calls, calls_since. split.
  - intros Haddr. run; tidy; steps;
      rewrite <- ?(assoc_L (++)), ?drop_app_length, ?drop_all; split_and!; auto; done.
  - intros Haddr Hvalid Hfind Howner. run; tidy; steps;
      rewrite <- ?(assoc_L (++)), ?drop_app_length; by split_and!.
Qed.

(** [user1] edits its post twice: keeping the address, and moving it to an
    address the geocoder rejects. *)
Lemma editPost_regeocodes_witness :
  (geocoder_calls sample_world
     (editPost healthy_env (sample_request user1 post1 "123 Main St") sample_world).2 = []
   ∧ (editPost healthy_env (sample_request user1 post1 "123 Main St") sample_world).1
     = json 200 (PostBody (mkDoc post1 (with_title_description "Hut" "In the hills" cabin))))
  ∧ (geocoder_calls sample_world
       (editPost healthy_env (sample_request user1 post1 "nowhere") sample_world).2
     = [Geocode "nowhere"]
     ∧ error_kind (editPost healthy_env (sample_request user1 post1 "nowhere") sample_world).1
       = Some GeocodeError
     ∧ posts (db (editPost healthy_env (sample_request user1 post1 "nowhere") sample_world).2)
         !! post1 = Some cabin).
Proof.
  split.
  - destruct (editPost_regeocodes_on_change healthy_env
                (sample_request user1 post1 "123 Main St") sample_world cabin)
      as [Hsame _]; [vm_compute; reflexivity|].
    destruct (Hsame eq_refl) as (Hcalls & _ & Hsaved).
    split; [exact Hcalls|]. apply Hsaved. vm_compute; reflexivity.
  - destruct (editPost_regeocodes_on_change healthy_env
                (sample_request user1 post1 "nowhere") sample_world cabin)
      as [_ Hmoved]; [vm_compute; reflexivity|].
    destruct Hmoved as (Hcalls & Hfails);
      [vm_compute; discriminate | reflexivity | reflexivity | reflexivity |].
    destruct (Hfails eq_refl) as (_ & Hkind & _ & Hkept).
    split; [exact Hcalls | split; [exact Hkind | exact Hkept]].
Defined.

(** C6: on a stored post whose creator is not the requester, a validated
    [editPost] and a [deletePost] both end in the 401 (the Unauthorized kind)
    and leave the store as it was, so the post is still stored with the same
    fields and nothing has been deleted.  The lookup is taken to answer; for
    [deletePost] the creator the post names is a stored user, as section 3
    requires of every post. *)
Theorem non_owner_is_unauthorized env req w post :
  posts (db w) !! pid req = Some post →
  p_creatorId post ≠ userId req →
  (validation_ok req = true →
   rejects env (PostFindById (pid req)) = false →
     (editPost env req w).1 = next (HttpError "This isn't your post!" "401")
     ∧ error_kind (editPost env req w).1 = Some Unauthorized
     ∧ db (editPost env req w).2 = db w
     ∧ posts (db (editPost env req w).2) !! pid req = Some post)
  ∧ (rejects env (PostFindByIdPopulate (pid req)) = false →
     is_Some (users (db w) !! p_creatorId post) →
     (deletePost env req w).1 = next (HttpError "This isn't your post!" "401")
     ∧ error_kind (deletePost env req w).1 = Some Unauthorized
     ∧ db (deletePost env req w).2 = db w
     ∧ posts (db (deletePost env req w).2) !! pid req = Some post).
Proof.
  intros Hpost Hother. split.
  - intros Hvalid Hfind. run; tidy; steps.
  - intros Hfind [creator Hcreator]. run; tidy; steps.
Qed.

(** [user2] tries to edit, then to delete, the post of [user1]. *)
Lemma non_owner_is_unauthorized_witness :
  ((editPost healthy_env (sample_request user2 post1 "9 Hill Rd") sample_world).1
     = next (HttpError "This isn't your post!" "401")
   ∧ posts (db (editPost healthy_env (sample_request user2 post1 "9 Hill Rd") sample_world).2)
       !! post1 = Some cabin)
  ∧ ((deletePost healthy_env (sample_request user2 post1 "") sample_world).1
       = next (HttpError "This isn't your post!" "401")
     ∧ posts (db (deletePost healthy_env (sample_request user2 post1 "") sample_world).2)
         !! post1 = Some cabin).
Proof.
  split.
  - destruct (non_owner_is_unauthorized healthy_env
                (sample_request user2 post1 "9 Hill Rd") sample_world cabin)
      as [Hedit _]; [vm_compute; reflexivity | vm_compute; discriminate |].
    destruct (Hedit eq_refl eq_refl) as (Hresp & _ & _ & Hkept).
    split; [exact Hresp | exact Hkept].
  - destruct (non_owner_is_unauthorized healthy_env
                (sample_request user2 post1 "") sample_world cabin)
      as [_ Hdelete]; [vm_compute; reflexivity | vm_compute; discriminate |].
    destruct Hdelete as (Hresp & _ & _ & Hkept);
      [reflexivity | vm_compute; eexists; reflexivity |].
    split; [exact Hresp | exact Hkept].
Defined.

(** C7, as the code has it: neither [findById] rejects for an identifier that
    is not stored, so neither 404 is reached; the [null] user or post is
    dereferenced inside the transaction's [try] and the request ends in the
    500 of that [catch] (the StoreError kind, not NotFound).  Both lookups
    come before the first write, and the store is left unchanged. *)
Theorem createComment_absent_is_store_error env req w :
  validation_ok req = true →
  rejects env (UserFindById (userId req)) = false →
  rejects env (PostFindById (postId req)) = false →
  users (db w) !! userId req = None ∨ posts (db w) !! postId req = None →
  (createComment env req w).1
    = next (HttpError "A communication error occured, please try again." "500")
  ∧ error_kind (createComment env req w).1 = Some StoreError
  ∧ take 2 (calls_since w (createComment env req w).2)
    = [Db (UserFindById (userId req)); Db (PostFindById (postId req))]
  ∧ db (createComment env req w).2 = db w.
Proof.
  intros Hvalid Huser Hpost Habsent. unfold calls_since.
  run; tidy. rewrite Hvalid, Huser. tidy. rewrite Hpost. tidy.
  assert (∀ (l : list Event) a b k, take 2 (drop (length l) (l ++ [a] ++ [b] ++ k)) = [a; b])
    as Htake by (intros; by rewrite drop_app_length).
  destruct Habsent; steps; rewrite <- ?(assoc_L (++)); by rewrite ?Htake.
Qed.

Lemma createComment_absent_witness :
  (createComment healthy_env (sample_request ghost_user post1 "") sample_world).1
    = next (HttpError "A communication error occured, please try again." "500")
  ∧ error_kind (createComment healthy_env (sample_request ghost_user post1 "") sample_world).1
    = Some StoreError
  ∧ take 2 (calls_since sample_world
              (createComment healthy_env (sample_request ghost_user post1 "") sample_world).2)
    = [Db (UserFindById ghost_user); Db (PostFindById post1)]
  ∧ db (createComment healthy_env (sample_request ghost_user post1 "") sample_world).2
    = db sample_world.
Proof.
  apply (createComment_absent_is_store_error healthy_env
           (sample_request ghost_user post1 "") sample_world);
    [reflexivity | reflexivity | reflexivity | left; vm_compute; reflexivity].
Defined.

(** C8: after a [createComment] that answered with success, the list of
    comments of the requesting user and the list of comments of the target
    post are the lists they were with the new comment's identifier added at
    the end, the comment is stored under that identifier, and, in a store
    whose comment lists name stored comments only, the identifier occurs
    exactly once in each of the two lists. *)
Theorem createComment_fans_out env req w :
  succeeded (createComment env req w).1 = true →
  ∃ user post,
    users (db w) !! userId req = Some user
    ∧ posts (db w) !! postId req = Some post
    ∧ u_comments <$> (users (db (createComment env req w).2) !! userId req)
      = Some (u_comments user ++ [newObjectId env])
    ∧ p_comments <$> (posts (db (createComment env req w).2) !! postId req)
      = Some (p_comments post ++ [newObjectId env])
    ∧ is_Some (comments (db (createComment env req w).2) !! newObjectId env)
    ∧ (comment_refs_closed (db w) →
       occurrences (newObjectId env) (u_comments user ++ [newObjectId env]) = 1%nat
       ∧ occurrences (newObjectId env) (p_comments post ++ [newObjectId env]) = 1%nat).
Proof.
  intros Hok.
  destruct (createComment_success env req w _ eq_refl Hok)
    as (user & post & Huser & Hpost & Hfresh & ->).
  exists user, post. cbn. rewrite !lookup_insert_eq.
  split_and!; try done.
  - intros Hclosed.
    pose proof (comment_refs_closed_user _ _ _ (newObjectId env) Hclosed Huser) as Hu.
    pose proof (comment_refs_closed_post _ _ _ (newObjectId env) Hclosed Hpost) as Hp.
    rewrite Hfresh in Hu, Hp.
    split; apply occurrences_snoc_fresh; intros Hin.
    + by destruct (Hu Hin).
    + by destruct (Hp Hin).
Qed.

(** [user2] comments once more on the post of [user1]. *)
Lemma createComment_fans_out_witness :
  u_comments <$>
    (users (db (createComment healthy_env (sample_request user2 post1 "") sample_world).2)
       !! user2)
  = Some [comment1; fresh_id]
  ∧ p_comments <$>
      (posts (db (createComment healthy_env (sample_request user2 post1 "") sample_world).2)
         !! post1)
    = Some [comment1; fresh_id]
  ∧ occurrences fresh_id [comment1; fresh_id] = 1%nat.
Proof.
  destruct (createComment_fans_out healthy_env (sample_request user2 post1 "") sample_world)
    as (user & post & Huser & Hpost & Hulist & Hplist & _ & Honce);
    [vm_compute; reflexivity|].
  vm_compute in Huser, Hpost.
  injection Huser as <-. injection Hpost as <-.
  split; [exact Hulist|]. split; [exact Hplist|].
  apply Honce. apply (bool_decide_unpack _). vm_compute. exact I.
Defined.

(** C9: after a [createPost] that answered with success the creator's list of
    posts is the list it was with the new post's identifier added at the end
    (and the identifier was not in it before); after a [deletePost] that
    answered with success the post is gone and its identifier is no longer in
    its creator's list; and both carry a store whose user lists and posts
    agree in both directions to a store where they still do. *)
Theorem post_backrefs_maintained env req w :
  (succeeded (createPost env req w).1 = true →
   ∃ user,
     users (db w) !! userId req = Some user
     ∧ u_posts <$> (users (db (createPost env req w).2) !! userId req)
       = Some (u_posts user ++ [newObjectId env])
     ∧ p_creatorId <$> (posts (db (createPost env req w).2) !! newObjectId env)
       = Some (userId req)
     ∧ (backrefs_consistent (db w) →
        occurrences (newObjectId env) (u_posts user ++ [newObjectId env]) = 1%nat
        ∧ backrefs_consistent (db (createPost env req w).2)))
  ∧ (succeeded (deletePost env req w).1 = true →
     ∃ post owner,
       posts (db w) !! pid req = Some post
       ∧ p_creatorId post = userId req
       ∧ posts (db (deletePost env req w).2) !! pid req = None
       ∧ users (db (deletePost env req w).2) !! userId req = Some owner
       ∧ (pid req ∉ u_posts owner)
       ∧ (backrefs_consistent (db w) →
          backrefs_consistent (db (deletePost env req w).2))).
Proof.
  split; intros Hok.
  - destruct (createPost_success env req w _ eq_refl Hok)
      as (user & c & Huser & Hfresh & _ & ->).
    exists user. cbn. rewrite !lookup_insert_eq.
    split_and!; try done.
    intros Hinv. split.
    + apply occurrences_snoc_fresh. intros Hin.
      destruct Hinv as [Hown _]. rewrite lists_own_posts_lookup in Hown.
      destruct (Hown _ _ _ Huser Hin) as (p & Hp & _). congruence.
    + by apply backrefs_insert_post.
  - destruct (deletePost_success env req w _ eq_refl Hok)
      as (post & owner & Hpost & Hcreator & Howner & ->).
    exists post, (mkUser (pull (pid req) (u_posts owner)) (u_comments owner)).
    cbn. rewrite lookup_delete_eq, <- Hcreator, lookup_insert_eq.
    split_and!; try done.
    + rewrite elem_of_pull. tauto.
    + intros Hinv. by apply backrefs_remove_post.
Qed.

(** [user1] creates a post, and [user1] deletes its post, in a consistent store. *)
Lemma post_backrefs_maintained_witness :
  (u_posts <$>
     (users (db (createPost healthy_env (sample_request user1 "" "9 Hill Rd") sample_world).2)
        !! user1)
   = Some [post1; fresh_id]
   ∧ occurrences fresh_id [post1; fresh_id] = 1%nat
   ∧ backrefs_consistent
       (db (createPost healthy_env (sample_request user1 "" "9 Hill Rd") sample_world).2))
  ∧ (u_posts <$>
       (users (db (deletePost healthy_env (sample_request user1 post1 "") sample_world).2)
          !! user1)
     = Some []
     ∧ posts (db (deletePost healthy_env (sample_request user1 post1 "") sample_world).2)
         !! post1 = None
     ∧ backrefs_consistent
         (db (deletePost healthy_env (sample_request user1 post1 "") sample_world).2)).
Proof.
  assert (backrefs_consistent (db sample_world)) as Hinv
    by (apply (bool_decide_unpack _); vm_compute; exact I).
  split.
  - destruct (proj1 (post_backrefs_maintained healthy_env
                       (sample_request user1 "" "9 Hill Rd") sample_world))
      as (user & Huser & Hlist & _ & Hkeeps); [vm_compute; reflexivity|].
    vm_compute in Huser. injection Huser as <-.
    split; [exact Hlist | exact (Hkeeps Hinv)].
  - destruct (proj2 (post_backrefs_maintained healthy_env
                       (sample_request user1 post1 "") sample_world))
      as (post & owner & _ & _ & Hgone & _ & _ & Hkeeps); [vm_compute; reflexivity|].
    split; [vm_compute; reflexivity|]. split; [exact Hgone | exact (Hkeeps Hinv)].
Defined.

(** C10: [createPost] calls the geocoder before anything else: the first call
    of a validated request is the geocoder call.  When the geocoder rejects
    the address, [createPost] hands the geocoder's own error to [next] (the
    GeocodeError kind) having made no store call at all, neither the user
    lookup nor any write, whatever [creatorId] refers to; the store is left
    as it was. *)
Theorem createPost_geocodes_before_lookup env req w :
  validation_ok req = true →
  head (calls_since w (createPost env req w).2) = Some (Geocode (address req))
  ∧ (getCoordsFromAddress env (address req) = None →
     (createPost env req w).1 = next (GeocodeFailure (address req))
     ∧ error_kind (createPost env req w).1 = Some GeocodeError
     ∧ calls_since w (createPost env req w).2 = [Geocode (address req)]
     ∧ db (createPost env req w).2 = db w).
Proof.
  intros Hvalid. unfold calls_since.
  split; [|intros Hgeo]; run; tidy; steps;
    by rewrite <- ?(assoc_L (++)), drop_app_length.
Qed.

(** A request whose address does not geocode and whose user is not stored:
    the geocoder's error wins, and the store was never called. *)
Lemma createPost_geocodes_before_lookup_witness :
  (createPost healthy_env (sample_request ghost_user "" "nowhere") sample_world).1
    = next (GeocodeFailure "nowhere")
  ∧ error_kind (createPost healthy_env (sample_request ghost_user "" "nowhere") sample_world).1
    = Some GeocodeError
  ∧ calls_since sample_world
      (createPost healthy_env (sample_request ghost_user "" "nowhere") sample_world).2
    = [Geocode "nowhere"]
  ∧ db (createPost healthy_env (sample_request ghost_user "" "nowhere") sample_world).2
    = db sample_world.
Proof.
  apply (createPost_geocodes_before_lookup healthy_env
           (sample_request ghost_user "" "nowhere") sample_world);
    reflexivity.
Defined.

(** ** The sibling lookup

    [deletePost] is the one handler that tests the result of [findById]
    against [null]. *)

(** X2: a [deletePost] on an identifier that no post has, answered by the
    lookup, ends in the 404 (the NotFound kind) and leaves the store as it
    was. *)
Theorem deletePost_absent_post_is_not_found env req w :
  rejects env (PostFindByIdPopulate (pid req)) = false →
  posts (db w) !! pid req = None →
  (deletePost env req w).1 = next (HttpError "Could not find a matching post ID." "404")
  ∧ error_kind (deletePost env req w).1 = Some NotFound
  ∧ db (deletePost env req w).2 = db w.
Proof.
  intros Hfind Habsent. run; tidy; steps.
Qed.

Lemma deletePost_absent_post_witness :
  (deletePost healthy_env (sample_request user1 ghost_post "") sample_world).1
    = next (HttpError "Could not find a matching post ID." "404")
  ∧ error_kind (deletePost healthy_env (sample_request user1 ghost_post "") sample_world).1
    = Some NotFound
  ∧ db (deletePost healthy_env (sample_request user1 ghost_post "") sample_world).2
    = db sample_world.
Proof.
  apply (deletePost_absent_post_is_not_found healthy_env
           (sample_request user1 ghost_post "") sample_world);
    vm_compute; reflexivity.
Defined.

(** ** Further properties

    What the handlers do beyond the properties above: their gates, the read
    handlers, the order of their calls, and how they compose. *)

(** X3: [createPost], [editPost] and [createComment] answer a request that
    failed validation with the 422 (the ValidationError kind) before they
    call the geocoder or the store: the world, trace included, is as it
    was. *)
Theorem invalid_input_is_rejected_first op env req w :
  op ≠ DeletePost →
  validation_ok req = false →
  perform op env req w
    = (next (HttpError "Invalid Inputs, Please check inputs" "422"), w)
  ∧ error_kind (perform op env req w).1 = Some ValidationError.
Proof.
  intros Hop Hinvalid.
  destruct op; try done; cbn [perform]; run; rewrite Hinvalid; tidy; by destruct w.
Qed.

Lemma invalid_input_witness :
  perform CreateComment healthy_env
    {| validation_ok := false; userId := user1; pid := post1;
       title := ""; description := ""; address := "";
       comment := ""; postId := post1; file_location := None |} sample_world
    = (next (HttpError "Invalid Inputs, Please check inputs" "422"), sample_world)
  ∧ error_kind
      (perform CreateComment healthy_env
         {| validation_ok := false; userId := user1; pid := post1;
            title := ""; description := ""; address := "";
            comment := ""; postId := post1; file_location := None |} sample_world).1
    = Some ValidationError.
Proof.
  apply invalid_input_is_rejected_first; [discriminate | reflexivity].
Defined.

(** X4: the 404 of [createPost], [editPost] and [createComment] is the answer
    to a [findById] call that rejected, and to nothing else: whether the
    document is stored plays no part. *)
Theorem not_found_means_lookup_rejected env req w :
  (error_kind (createPost env req w).1 = Some NotFound ↔
     validation_ok req = true
     ∧ is_Some (getCoordsFromAddress env (address req))
     ∧ rejects env (UserFindById (userId req)) = true)
  ∧ (error_kind (editPost env req w).1 = Some NotFound ↔
       validation_ok req = true
       ∧ rejects env (PostFindById (pid req)) = true)
  ∧ (error_kind (createComment env req w).1 = Some NotFound ↔
       validation_ok req = true
       ∧ (rejects env (UserFindById (userId req)) = true
          ∨ rejects env (PostFindById (postId req)) = true)).
Proof.
  split_and!.
  - shield (createPost env req w). run; tidy; explore; unshield; tidy; kinds;
      split; intros; leaf; eauto.
  - shield (editPost env req w). run; tidy; explore; unshield; tidy; kinds;
      split; intros; leaf; eauto.
  - shield (createComment env req w). run; tidy; explore; unshield; tidy; kinds;
      split; intros; leaf; eauto.
Qed.

(** X5: the geocoder is called at most once per request, and only for the
    address of the request.  [createPost] calls it for every validated
    request; [editPost] calls it exactly when a validated request reaches a
    stored post of the requester with another address; [deletePost] and
    [createComment] never call it. *)
Theorem geocoder_is_called_when env req w :
  geocoder_calls w (createPost env req w).2
    = (if validation_ok req then [Geocode (address req)] else [])
  ∧ (geocoder_calls w (editPost env req w).2 = [Geocode (address req)]
     ∨ geocoder_calls w (editPost env req w).2 = [])
  ∧ (geocoder_calls w (editPost env req w).2 = [Geocode (address req)] ↔
       validation_ok req = true
       ∧ rejects env (PostFindById (pid req)) = false
       ∧ ∃ post, posts (db w) !! pid req = Some post
           ∧ p_creatorId post = userId req
           ∧ p_address post ≠ address req)
  ∧ geocoder_calls w (deletePost env req w).2 = []
  ∧ geocoder_calls w (createComment env req w).2 = [].
Proof.
  split_and!.
  - shield (createPost env req w). run; tidy; explore; unshield; by traces.
  - shield (editPost env req w). run; tidy; explore; unshield; traces; auto.
  - shield (editPost env req w). run; tidy; explore; unshield; traces;
      split; intros; leaf; simplify_eq; try clash; try congruence; eauto 10.
  - shield (deletePost env req w). run; tidy; explore; unshield; by traces.
  - shield (createComment env req w). run; tidy; explore; unshield; by traces.
Qed.

(** X6: [getPostById] answers with the stored post when the lookup answers
    and the identifier is that of a stored post, and with the 404 (the
    NotFound kind) otherwise: here the [null] of an absent post is
    dereferenced inside the [try], so absence and a rejected lookup end
    alike.  The store is never changed. *)
Theorem getPostById_found_or_404 env req w :
  db (getPostById env req w).2 = db w
  ∧ (∀ post,
       rejects env (PostFindById (pid req)) = false →
       posts (db w) !! pid req = Some post →
       (getPostById env req w).1 = json 200 (PostBody (mkDoc (pid req) post)))
  ∧ (rejects env (PostFindById (pid req)) = true ∨ posts (db w) !! pid req = None →
     (getPostById env req w).1
       = next (HttpError "Could not find a post for the provided id." "404")
     ∧ error_kind (getPostById env req w).1 = Some NotFound).
Proof.
  split_and!.
  - run_reads; tidy; steps.
  - intros post Hfind Hpost. run_reads; tidy; steps.
  - intros Hnone. run_reads; tidy. destruct Hnone; steps.
Qed.

Lemma getPostById_witness :
  (getPostById healthy_env (sample_request user2 post1 "") sample_world).1
    = json 200 (PostBody (mkDoc post1 cabin))
  ∧ (getPostById healthy_env (sample_request user2 ghost_post "") sample_world).1
    = next (HttpError "Could not find a post for the provided id." "404").
Proof.
  split.
  - apply (proj1 (proj2 (getPostById_found_or_404 healthy_env
                           (sample_request user2 post1 "") sample_world)));
      vm_compute; reflexivity.
  - apply (proj2 (proj2 (getPostById_found_or_404 healthy_env
                           (sample_request user2 ghost_post "") sample_world))).
    right. vm_compute; reflexivity.
Defined.

(** ** What an operation leaves *)

(** An operation that did not succeed has written nothing. *)
Lemma failure_keeps_store op env req w :
  succeeded (perform op env req w).1 = false →
  db (perform op env req w).2 = db w.
Proof.
  destruct op; cbn [perform].
  - shield (createPost env req w). run; tidy; explore; unshield; by tidy.
  - shield (editPost env req w). run; tidy; explore; unshield; by tidy.
  - shield (deletePost env req w). run; tidy; explore; unshield; by tidy.
  - shield (createComment env req w). run; tidy; explore; unshield; by tidy.
Qed.

(** What [editPost] leaves in every outcome: the store as it was, or that
    store with the post under [pid] replaced by one of the same creator,
    creation date, image and comments. *)
Lemma editPost_store env req w :
  db (editPost env req w).2 = db w
  ∨ ∃ post post',
      posts (db w) !! pid req = Some post
      ∧ db (editPost env req w).2
        = mkStore (users (db w)) (<[pid req := post']> (posts (db w))) (comments (db w))
      ∧ p_creatorId post' = p_creatorId post
      ∧ p_createDate post' = p_createDate post
      ∧ p_image post' = p_image post
      ∧ p_comments post' = p_comments post.
Proof.
  shield (editPost env req w). run; tidy; explore; unshield; tidy; auto;
    right; eexists _, _; by split_and!.
Qed.

(** X7: [editPost] never changes who created a post, when it was created,
    its image or its comment list, and never touches another post, a user or
    a comment, whatever the request and the outcome. *)
Theorem editPost_frame env req w :
  users (db (editPost env req w).2) = users (db w)
  ∧ comments (db (editPost env req w).2) = comments (db w)
  ∧ (∀ id, id ≠ pid req →
       posts (db (editPost env req w).2) !! id = posts (db w) !! id)
  ∧ (λ p, (p_creatorId p, p_createDate p, p_image p, p_comments p))
      <$> (posts (db (editPost env req w).2) !! pid req)
    = (λ p, (p_creatorId p, p_createDate p, p_image p, p_comments p))
        <$> (posts (db w) !! pid req).
Proof.
  destruct (editPost_store env req w)
    as [->|(post & post' & Hpost & -> & Hcreator & Hdate & Himage & Hcomments)];
    [done|].
  cbn. split_and!; try done.
  - intros id Hother. by rewrite lookup_insert_ne.
  - rewrite lookup_insert_eq, Hpost. cbn. congruence.
Qed.

(** X8: an [editPost] that succeeded was made by the creator of a stored
    post; the post it answers with is the post it stored, with the title,
    description and address of the request; the coordinates are the stored
    ones when the address was the stored address and the geocoder's answer
    for the new address otherwise. *)
Theorem editPost_persists_what_it_answers env req w :
  succeeded (editPost env req w).1 = true →
  ∃ post post',
    posts (db w) !! pid req = Some post
    ∧ p_creatorId post = userId req
    ∧ (editPost env req w).1 = json 200 (PostBody (mkDoc (pid req) post'))
    ∧ posts (db (editPost env req w).2) !! pid req = Some post'
    ∧ p_title post' = title req
    ∧ p_description post' = description req
    ∧ p_address post' = address req
    ∧ (p_address post = address req → p_coordinates post' = p_coordinates post)
    ∧ (p_address post ≠ address req →
       getCoordsFromAddress env (address req) = Some (p_coordinates post')).
Proof.
  shield (editPost env req w). run; tidy; explore; unshield; tidy;
    intros Hok; try discriminate Hok.
  all: eexists _, _; cbn; rewrite lookup_insert_eq; split_and!; try done.
  all: try congruence.
Qed.

Lemma editPost_persists_witness :
  ∃ post',
    (editPost healthy_env (sample_request user1 post1 "9 Hill Rd") sample_world).1
      = json 200 (PostBody (mkDoc post1 post'))
    ∧ posts (db (editPost healthy_env (sample_request user1 post1 "9 Hill Rd") sample_world).2)
        !! post1 = Some post'
    ∧ p_address post' = "9 Hill Rd"
    ∧ sample_geocoder "9 Hill Rd" = Some (p_coordinates post').
Proof.
  destruct (editPost_persists_what_it_answers healthy_env
              (sample_request user1 post1 "9 Hill Rd") sample_world)
    as (post & post' & Hpost & _ & Hanswer & Hstored & _ & _ & Haddr & _ & Hgeo);
    [vm_compute; reflexivity|].
  exists post'. split_and!; [exact Hanswer | exact Hstored | exact Haddr |].
  apply Hgeo. vm_compute in Hpost. injection Hpost as <-. vm_compute. discriminate.
Defined.

(** ** The collections as lists *)

Lemma elem_of_all_posts s d :
  d ∈ all_posts s ↔ posts s !! _id d = Some (fields d).
Proof.
  unfold all_posts. rewrite list_elem_of_fmap. split.
  - intros ([id p] & -> & Hin). by apply elem_of_map_to_list in Hin.
  - intros Hd. exists (_id d, fields d). split; [by destruct d|].
    by apply elem_of_map_to_list.
Qed.

Lemma NoDup_all_posts s : NoDup (all_posts s).
Proof.
  unfold all_posts. apply NoDup_fmap_2; [|apply NoDup_map_to_list].
  intros [i p] [j q] Heq. by simplify_eq/=.
Qed.

Lemma elem_of_all_comments s d :
  d ∈ all_comments s ↔ comments s !! _id d = Some (fields d).
Proof.
  unfold all_comments. rewrite list_elem_of_fmap. split.
  - intros ([id c] & -> & Hin). by apply elem_of_map_to_list in Hin.
  - intros Hd. exists (_id d, fields d). split; [by destruct d|].
    by apply elem_of_map_to_list.
Qed.

Lemma NoDup_all_comments s : NoDup (all_comments s).
Proof.
  unfold all_comments. apply NoDup_fmap_2; [|apply NoDup_map_to_list].
  intros [i p] [j q] Heq. by simplify_eq/=.
Qed.

(** What [getPostsByUserId] answers when the scan answers. *)
Lemma getPostsByUserId_run scan_rejects req w :
  scan_rejects (PostFindByCreator (uid req)) = false →
  getPostsByUserId scan_rejects req w
  = (match filter (λ d, p_creatorId (fields d) = uid req) (all_posts (db w)) with
     | [] => next (HttpError "Could not find any posts for the provided user." "404")
     | d :: ds => json 200 (PostsBody (d :: ds))
     end, w).
Proof.
  intros Hscan. run_reads. rewrite Hscan. tidy.
  by destruct (filter _ (all_posts (db w))).
Qed.

(** What [getComments] answers when the scan answers. *)
Lemma getComments_run scan_rejects req w :
  scan_rejects (CommentFindByPost (pid req)) = false →
  getComments scan_rejects req w
  = (match (λ d, (d, doc_at (users (db w)) (c_creatorId (fields d))))
             <$> filter (λ d, c_post (fields d) = pid req) (all_comments (db w)) with
     | [] => comments_json 200 NoComments
     | c :: cs => comments_json 200 (Comments (c :: cs))
     end, w).
Proof.
  intros Hscan. run_reads. rewrite Hscan. tidy.
  by destruct (filter _ (all_comments (db w))).
Qed.

(** X9: [getPostsByUserId] leaves the world as it found it.  A scan that
    rejects gives the 500; a scan that answers gives the 404 (the NotFound
    kind) when no stored post has the given creator, and otherwise the 200
    with exactly the stored posts of that creator, each once. *)
Theorem getPostsByUserId_lists_created_posts scan_rejects req w :
  (getPostsByUserId scan_rejects req w).2 = w
  ∧ (scan_rejects (PostFindByCreator (uid req)) = true →
     (getPostsByUserId scan_rejects req w).1
       = next (HttpError "A communication error occured, please try again." "500"))
  ∧ (scan_rejects (PostFindByCreator (uid req)) = false →
     (∀ id p, posts (db w) !! id = Some p → p_creatorId p ≠ uid req) →
     (getPostsByUserId scan_rejects req w).1
       = next (HttpError "Could not find any posts for the provided user." "404"))
  ∧ (scan_rejects (PostFindByCreator (uid req)) = false →
     ∀ id p, posts (db w) !! id = Some p → p_creatorId p = uid req →
     ∃ ds,
       (getPostsByUserId scan_rejects req w).1 = json 200 (PostsBody ds)
       ∧ NoDup ds
       ∧ ∀ d, d ∈ ds ↔
              posts (db w) !! _id d = Some (fields d)
              ∧ p_creatorId (fields d) = uid req).
Proof.
  split_and!.
  - run_reads. destruct (scan_rejects _); tidy; [by destruct w|].
    destruct (bool_decide _); by destruct w.
  - intros Hscan. run_reads. by rewrite Hscan.
  - intros Hscan Hnone. rewrite getPostsByUserId_run by done.
    destruct (filter _ _) as [|d ds] eqn:Hfilter; [done|].
    assert (d ∈ filter (λ d, p_creatorId (fields d) = uid req) (all_posts (db w)))
      as Hin by (rewrite Hfilter; left).
    apply list_elem_of_filter in Hin as [Hcreator Hin%elem_of_all_posts].
    by destruct (Hnone _ _ Hin).
  - intros Hscan id p Hp Hcreator. rewrite getPostsByUserId_run by done.
    assert (mkDoc id p ∈ filter (λ d, p_creatorId (fields d) = uid req) (all_posts (db w)))
      as Hin by (apply list_elem_of_filter; split; [done|by apply elem_of_all_posts]).
    assert (NoDup (filter (λ d, p_creatorId (fields d) = uid req) (all_posts (db w))))
      as Hnodup by apply NoDup_filter, NoDup_all_posts.
    assert (∀ d, d ∈ filter (λ d, p_creatorId (fields d) = uid req) (all_posts (db w)) ↔
              posts (db w) !! _id d = Some (fields d) ∧ p_creatorId (fields d) = uid req)
      as Hspec by (intros d; rewrite list_elem_of_filter, elem_of_all_posts; tauto).
    destruct (filter _ _) as [|d ds]; [by apply elem_of_nil in Hin|].
    eexists. split_and!; done.
Qed.

Lemma getPostsByUserId_witness :
  (getPostsByUserId healthy_scans (mkUserPostsRequest ghost_user) sample_world).1
    = next (HttpError "Could not find any posts for the provided user." "404")
  ∧ ∃ ds,
      (getPostsByUserId healthy_scans (mkUserPostsRequest user1) sample_world).1
        = json 200 (PostsBody ds)
      ∧ NoDup ds
      ∧ ∀ d, d ∈ ds ↔
             posts (db sample_world) !! _id d = Some (fields d)
             ∧ p_creatorId (fields d) = user1.
Proof.
  split.
  - apply (proj1 (proj2 (proj2 (getPostsByUserId_lists_created_posts healthy_scans
                                  (mkUserPostsRequest ghost_user) sample_world))));
      [reflexivity|].
    intros id p Hp. apply (bool_decide_unpack _). revert id p Hp.
    apply (bool_decide_unpack
             (map_Forall (λ _ p, bool_decide (p_creatorId p ≠ ghost_user))
                (posts (db sample_world)))).
    vm_compute. exact I.
  - apply (proj2 (proj2 (proj2 (getPostsByUserId_lists_created_posts healthy_scans
                                  (mkUserPostsRequest user1) sample_world)))
             eq_refl post1 cabin); vm_compute; reflexivity.
Defined.

(** X10: in a store whose user lists and posts agree, [getPostsByUserId] for
    a stored user answers the 404 when the user's post list is empty and
    otherwise with posts whose identifiers are exactly those of the list. *)
Theorem getPostsByUserId_agrees_with_post_list scan_rejects req w u :
  backrefs_consistent (db w) →
  users (db w) !! uid req = Some u →
  scan_rejects (PostFindByCreator (uid req)) = false →
  (u_posts u = [] →
   (getPostsByUserId scan_rejects req w).1
     = next (HttpError "Could not find any posts for the provided user." "404"))
  ∧ (u_posts u ≠ [] →
     ∃ ds,
       (getPostsByUserId scan_rejects req w).1 = json 200 (PostsBody ds)
       ∧ ∀ id, id ∈ _id <$> ds ↔ id ∈ u_posts u).
Proof.
  intros [Hown Hlisted] Hu Hscan.
  rewrite lists_own_posts_lookup in Hown.
  rewrite listed_by_creator_lookup in Hlisted.
  rewrite getPostsByUserId_run by done.
  assert (∀ id, id ∈ _id <$> filter (λ d, p_creatorId (fields d) = uid req)
                               (all_posts (db w)) ↔ id ∈ u_posts u) as Hsame.
  { intros id. rewrite list_elem_of_fmap. split.
    - intros (d & -> & Hin). apply list_elem_of_filter in Hin as [Hcreator Hin].
      apply elem_of_all_posts in Hin.
      destruct (Hlisted _ _ Hin) as (u' & Hu' & Hlist). congruence.
    - intros Hin. destruct (Hown _ _ _ Hu Hin) as (p & Hp & Hcreator).
      exists (mkDoc id p). split; [done|].
      apply list_elem_of_filter. split; [done|]. by apply elem_of_all_posts. }
  destruct (filter _ _) as [|d ds]; split; intros Hlist.
  - done.
  - destruct (u_posts u) as [|id ids]; [done|].
    specialize (Hsame id). cbn in Hsame. rewrite elem_of_nil in Hsame.
    destruct (proj2 Hsame). left.
  - specialize (Hsame (_id d)). rewrite Hlist, elem_of_nil in Hsame.
    destruct (proj1 Hsame). left.
  - eauto.
Qed.

Lemma getPostsByUserId_agrees_witness :
  ∃ ds,
    (getPostsByUserId healthy_scans (mkUserPostsRequest user2) sample_world).1
      = json 200 (PostsBody ds)
    ∧ ∀ id, id ∈ _id <$> ds ↔ id ∈ [post2].
Proof.
  apply (proj2 (getPostsByUserId_agrees_with_post_list healthy_scans
                  (mkUserPostsRequest user2) sample_world (mkUser [post2] [comment1])
                  ltac:(apply (bool_decide_unpack _); vm_compute; exact I)
                  ltac:(vm_compute; reflexivity) eq_refl)).
  discriminate.
Defined.

(** X11: [getComments] never answers with an error kind of its own: a scan
    that rejects gives the 500, and a scan that answers gives the 200, with
    [{ message: null }] when no stored comment names the post (a post that
    is not stored among them) and otherwise with exactly the stored comments
    that name it, each once and each with its creator as stored.  The world
    is left as it was. *)
Theorem getComments_lists_comments_of_post scan_rejects req w :
  (getComments scan_rejects req w).2 = w
  ∧ (scan_rejects (CommentFindByPost (pid req)) = true →
     (getComments scan_rejects req w).1
       = comments_next
           (HttpError "A communication error occured, please try again." "500"))
  ∧ (scan_rejects (CommentFindByPost (pid req)) = false →
     (∀ id c, comments (db w) !! id = Some c → c_post c ≠ pid req) →
     (getComments scan_rejects req w).1 = comments_json 200 NoComments)
  ∧ (scan_rejects (CommentFindByPost (pid req)) = false →
     ∀ id c, comments (db w) !! id = Some c → c_post c = pid req →
     ∃ cs,
       (getComments scan_rejects req w).1 = comments_json 200 (Comments cs)
       ∧ NoDup cs.*1
       ∧ ∀ d o, (d, o) ∈ cs ↔
                comments (db w) !! _id d = Some (fields d)
                ∧ c_post (fields d) = pid req
                ∧ o = doc_at (users (db w)) (c_creatorId (fields d))).
Proof.
  split_and!.
  - run_reads. destruct (scan_rejects _); tidy; [by destruct w|].
    destruct (bool_decide _); by destruct w.
  - intros Hscan. run_reads. by rewrite Hscan.
  - intros Hscan Hnone. rewrite getComments_run by done.
    destruct (filter _ _) as [|d ds] eqn:Hfilter; [done|].
    assert (d ∈ filter (λ d, c_post (fields d) = pid req) (all_comments (db w)))
      as Hin by (rewrite Hfilter; left).
    apply list_elem_of_filter in Hin as [Hpost Hin%elem_of_all_comments].
    by destruct (Hnone _ _ Hin).
  - intros Hscan cid c Hc Hpost. rewrite getComments_run by done.
    set (found := filter (λ d, c_post (fields d) = pid req) (all_comments (db w))).
    set (populate := λ d : Doc Comment, (d, doc_at (users (db w)) (c_creatorId (fields d)))).
    assert (mkDoc cid c ∈ found) as Hin
      by (apply list_elem_of_filter; split; [done|by apply elem_of_all_comments]).
    assert (NoDup (populate <$> found).*1) as Hnodup.
    { replace ((populate <$> found).*1) with found;
        [apply NoDup_filter, NoDup_all_comments|].
      clear Hin. induction found as [|d ds IH]; [done|]. cbn. by f_equal. }
    assert (∀ d o, (d, o) ∈ populate <$> found ↔
              comments (db w) !! _id d = Some (fields d)
              ∧ c_post (fields d) = pid req
              ∧ o = doc_at (users (db w)) (c_creatorId (fields d))) as Hspec.
    { intros d o. rewrite list_elem_of_fmap. unfold found, populate. split.
      - intros (d' & [= -> ->] & Hd%list_elem_of_filter).
        rewrite elem_of_all_comments in Hd. tauto.
      - intros (Hd & Hp & ->). exists d. split; [done|].
        apply list_elem_of_filter. by rewrite elem_of_all_comments. }
    destruct (populate <$> found) as [|x xs] eqn:Hfound.
    + apply fmap_nil_inv in Hfound. rewrite Hfound in Hin. by apply elem_of_nil in Hin.
    + eexists. split_and!; done.
Qed.

Lemma getComments_witness :
  (getComments healthy_scans (sample_request user1 post2 "") sample_world).1
    = comments_json 200 NoComments
  ∧ (getComments healthy_scans (sample_request user1 ghost_post "") sample_world).1
    = comments_json 200 NoComments
  ∧ ∃ cs,
      (getComments healthy_scans (sample_request user1 post1 "") sample_world).1
        = comments_json 200 (Comments cs)
      ∧ NoDup cs.*1
      ∧ ∀ d o, (d, o) ∈ cs ↔
               comments (db sample_world) !! _id d = Some (fields d)
               ∧ c_post (fields d) = post1
               ∧ o = doc_at (users (db sample_world)) (c_creatorId (fields d)).
Proof.
  assert (∀ target, target ≠ post1 →
            ∀ id c, comments (db sample_world) !! id = Some c → c_post c ≠ target)
    as Hnone.
  { intros target Htarget id c Hc. cbn in Hc.
    apply lookup_singleton_Some in Hc as [_ <-]. cbn. congruence. }
  split_and!.
  - apply (proj1 (proj2 (proj2 (getComments_lists_comments_of_post healthy_scans
                                  (sample_request user1 post2 "") sample_world))));
      [reflexivity|]. apply Hnone. discriminate.
  - apply (proj1 (proj2 (proj2 (getComments_lists_comments_of_post healthy_scans
                                  (sample_request user1 ghost_post "") sample_world))));
      [reflexivity|]. apply Hnone. discriminate.
  - apply (proj2 (proj2 (proj2 (getComments_lists_comments_of_post healthy_scans
                                  (sample_request user1 post1 "") sample_world)))
             eq_refl comment1 (mkComment user2 1500 "Lovely" post1));
      vm_compute; reflexivity.
Defined.

(** X12: a comment that [createComment] reported as created is among the
    comments [getComments] then answers for its post, together with its
    creator, whose comment list ends with the new comment. *)
Theorem created_comment_is_listed env req w scan_rejects req' :
  succeeded (createComment env req w).1 = true →
  scan_rejects (CommentFindByPost (postId req)) = false →
  pid req' = postId req →
  ∃ user cs,
    users (db w) !! userId req = Some user
    ∧ (getComments scan_rejects req' (createComment env req w).2).1
      = comments_json 200 (Comments cs)
    ∧ (mkDoc (newObjectId env)
         (mkComment (userId req) (now env) (comment req) (postId req)),
       Some (mkDoc (userId req)
               (mkUser (u_posts user) (u_comments user ++ [newObjectId env]))))
      ∈ cs.
Proof.
  intros Hok Hscan Hpid.
  destruct (createComment_success env req w _ eq_refl Hok)
    as (user & post & Huser & Hpost & Hfresh & Hdb).
  exists user. rewrite getComments_run by (by rewrite Hpid).
  rewrite Hdb, Hpid. cbn [users comments].
  set (created := mkDoc (newObjectId env)
                    (mkComment (userId req) (now env) (comment req) (postId req))).
  match goal with
  | |- context [filter ?P (all_comments ?s)] =>
      assert (created ∈ filter P (all_comments s)) as Hin
  end.
  { apply list_elem_of_filter. split; [done|].
    apply elem_of_all_comments. cbn. by rewrite lookup_insert_eq. }
  match goal with
  | |- context [?f <$> filter ?P (all_comments ?s)] =>
      apply (list_elem_of_fmap_2 f) in Hin;
      destruct (f <$> filter P (all_comments s)) as [|c cs] eqn:Hcs
  end.
  - by apply elem_of_nil in Hin.
  - eexists. split; [done|]. cbn in Hin. unfold doc_at in Hin.
    by rewrite lookup_insert_eq in Hin.
Qed.

Lemma created_comment_is_listed_witness :
  ∃ cs,
    (getComments healthy_scans (sample_request user1 post2 "")
       (createComment healthy_env (sample_request user1 post2 "") sample_world).2).1
      = comments_json 200 (Comments cs)
    ∧ (mkDoc fresh_id (mkComment user1 3000 "Lovely" post2),
       Some (mkDoc user1 (mkUser [post1] [fresh_id])))
      ∈ cs.
Proof.
  destruct (created_comment_is_listed healthy_env (sample_request user1 post2 "")
              sample_world healthy_scans (sample_request user1 post2 ""))
    as (user & cs & Huser & Hanswer & Hin);
    [vm_compute; reflexivity | reflexivity | reflexivity |].
  vm_compute in Huser. injection Huser as <-.
  exists cs. split; [exact Hanswer | exact Hin].
Defined.

(** X13: a post that [createPost] reported as created is the post
    [getPostById] then answers for the new identifier. *)
Theorem created_post_is_found env req w env' req' :
  succeeded (createPost env req w).1 = true →
  rejects env' (PostFindById (newObjectId env)) = false →
  pid req' = newObjectId env →
  ∃ d,
    (createPost env req w).1 = json 201 (PostBody d)
    ∧ _id d = newObjectId env
    ∧ p_creatorId (fields d) = userId req
    ∧ (getPostById env' req' (createPost env req w).2).1 = json 200 (PostBody d).
Proof.
  intros Hok Hfind Hpid.
  destruct (createPost_success env req w _ eq_refl Hok)
    as (user & c & Huser & Hfresh & Hgeo & Hdb).
  assert (∀ w', db w' = db (createPost env req w).2 →
            (getPostById env' req' w').1
            = json 200 (PostBody (mkDoc (newObjectId env)
                (mkPost (title req) (description req) (userId req)
                   (address req) c (now env) (file_location req) [])))) as Hget.
  { intros w' Hw'. run_reads; tidy. rewrite Hpid, Hfind, Hw', Hdb. tidy.
    cbn. by rewrite lookup_insert_eq. }
  rewrite (Hget _ eq_refl).
  exists (mkDoc (newObjectId env)
            (mkPost (title req) (description req) (userId req)
               (address req) c (now env) (file_location req) [])).
  split_and!; [|done|done|done].
  clear Hget Hdb. revert Hok.
  shield (createPost env req w). run; tidy; explore; unshield; tidy;
    intros Hok; try discriminate Hok.
  done.
Qed.

Lemma created_post_is_found_witness :
  ∃ d,
    (createPost healthy_env (sample_request user1 "" "9 Hill Rd") sample_world).1
      = json 201 (PostBody d)
    ∧ _id d = fresh_id
    ∧ p_creatorId (fields d) = user1
    ∧ (getPostById healthy_env (sample_request user2 fresh_id "")
         (createPost healthy_env (sample_request user1 "" "9 Hill Rd") sample_world).2).1
      = json 200 (PostBody d).
Proof.
  apply (created_post_is_found healthy_env (sample_request user1 "" "9 Hill Rd")
           sample_world healthy_env (sample_request user2 fresh_id ""));
    [vm_compute; reflexivity | reflexivity | reflexivity].
Defined.

(** ** Invariants across operations *)

(** The agreement between user lists and posts reads only the post list of
    each user and the creator of each post. *)
Lemma backrefs_same_shape s s' :
  (∀ uid, u_posts <$> (users s' !! uid) = u_posts <$> (users s !! uid)) →
  (∀ id, p_creatorId <$> (posts s' !! id) = p_creatorId <$> (posts s !! id)) →
  backrefs_consistent s → backrefs_consistent s'.
Proof.
  intros Husers Hposts [Hown Hlisted].
  rewrite lists_own_posts_lookup in Hown.
  rewrite listed_by_creator_lookup in Hlisted.
  split.
  - apply lists_own_posts_lookup. intros uid u' id Hu' Hin.
    specialize (Husers uid). rewrite Hu' in Husers.
    destruct (users s !! uid) as [u|] eqn:Hu; [|discriminate Husers].
    injection Husers as Hlist. rewrite Hlist in Hin.
    destruct (Hown _ _ _ Hu Hin) as (p & Hp & Hcreator).
    specialize (Hposts id). rewrite Hp in Hposts.
    destruct (posts s' !! id) as [p'|]; [|discriminate Hposts].
    injection Hposts as Hsame. exists p'. split; [done|congruence].
  - apply listed_by_creator_lookup. intros id p' Hp'.
    specialize (Hposts id). rewrite Hp' in Hposts.
    destruct (posts s !! id) as [p|] eqn:Hp; [|discriminate Hposts].
    injection Hposts as Hsame.
    destruct (Hlisted _ _ Hp) as (u & Hu & Hin).
    specialize (Husers (p_creatorId p)). rewrite Hu in Husers.
    rewrite Hsame. destruct (users s' !! p_creatorId p) as [u'|]; [|discriminate Husers].
    injection Husers as Hlist. exists u'. split; [done|congruence].
Qed.

Lemma comment_refs_closed_lookup s :
  comment_refs_closed s ↔
  (∀ uid u c, users s !! uid = Some u → c ∈ u_comments u → is_Some (comments s !! c))
  ∧ (∀ id p c, posts s !! id = Some p → c ∈ p_comments p → is_Some (comments s !! c)).
Proof.
  unfold comment_refs_closed. rewrite !map_Forall_lookup.
  split; intros [Hu Hp]; split.
  - intros uid u c Hlookup Hin. specialize (Hu uid u Hlookup).
    rewrite Forall_forall in Hu. by apply Hu.
  - intros id p c Hlookup Hin. specialize (Hp id p Hlookup).
    rewrite Forall_forall in Hp. by apply Hp.
  - intros uid u Hlookup. apply Forall_forall. eauto.
  - intros id p Hlookup. apply Forall_forall. eauto.
Qed.

Lemma backrefs_preserved op env req w :
  backrefs_consistent (db w) → backrefs_consistent (db (perform op env req w).2).
Proof.
  intros Hinv.
  destruct (succeeded (perform op env req w).1) eqn:Hok;
    [|by rewrite failure_keeps_store].
  destruct op; cbn [perform] in *.
  - destruct (createPost_success env req w _ eq_refl Hok)
      as (user & c & Huser & Hfresh & _ & ->).
    by apply backrefs_insert_post.
  - destruct (editPost_store env req w)
      as [->|(post & post' & Hpost & -> & Hcreator & _)]; [done|].
    apply (backrefs_same_shape (db w)); [done| |done].
    intros id. cbn. destruct (decide (id = pid req)) as [->|Hne].
    + rewrite lookup_insert_eq, Hpost. cbn. congruence.
    + by rewrite lookup_insert_ne.
  - destruct (deletePost_success env req w _ eq_refl Hok)
      as (post & owner & Hpost & _ & Howner & ->).
    by apply backrefs_remove_post.
  - destruct (createComment_success env req w _ eq_refl Hok)
      as (user & post & Huser & Hpost & _ & ->).
    apply (backrefs_same_shape (db w)); [| |done]; intros id; cbn.
    + destruct (decide (id = userId req)) as [->|Hne].
      * by rewrite lookup_insert_eq, Huser.
      * by rewrite lookup_insert_ne.
    + destruct (decide (id = postId req)) as [->|Hne].
      * by rewrite lookup_insert_eq, Hpost.
      * by rewrite lookup_insert_ne.
Qed.

Lemma comment_refs_preserved op env req w :
  comment_refs_closed (db w) → comment_refs_closed (db (perform op env req w).2).
Proof.
  intros Hinv.
  destruct (succeeded (perform op env req w).1) eqn:Hok;
    [|by rewrite failure_keeps_store].
  apply comment_refs_closed_lookup in Hinv as [Hus Hps].
  apply comment_refs_closed_lookup.
  destruct op; cbn [perform] in *.
  - destruct (createPost_success env req w _ eq_refl Hok)
      as (user & c & Huser & Hfresh & _ & ->).
    cbn. split.
    + intros uid u cm Hu Hin. destruct (decide (uid = userId req)) as [->|Hne].
      * rewrite lookup_insert_eq in Hu. simplify_eq/=. eauto.
      * rewrite lookup_insert_ne in Hu by done. eauto.
    + intros id p cm Hp Hin. destruct (decide (id = newObjectId env)) as [->|Hne].
      * rewrite lookup_insert_eq in Hp. simplify_eq/=. by apply elem_of_nil in Hin.
      * rewrite lookup_insert_ne in Hp by done. eauto.
  - destruct (editPost_store env req w)
      as [->|(post & post' & Hpost & -> & _ & _ & _ & Hcomments)]; [done|].
    cbn. split; [done|].
    intros id p cm Hp Hin. destruct (decide (id = pid req)) as [->|Hne].
    + rewrite lookup_insert_eq in Hp. simplify_eq/=. rewrite Hcomments in Hin. eauto.
    + rewrite lookup_insert_ne in Hp by done. eauto.
  - destruct (deletePost_success env req w _ eq_refl Hok)
      as (post & owner & Hpost & _ & Howner & ->).
    cbn. split.
    + intros uid u cm Hu Hin. destruct (decide (uid = p_creatorId post)) as [->|Hne].
      * rewrite lookup_insert_eq in Hu. simplify_eq/=. eauto.
      * rewrite lookup_insert_ne in Hu by done. eauto.
    + intros id p cm Hp Hin. apply lookup_delete_Some in Hp as [_ Hp]. eauto.
  - destruct (createComment_success env req w _ eq_refl Hok)
      as (user & post & Huser & Hpost & Hfresh & ->).
    cbn.
    assert (∀ cm, is_Some (comments (db w) !! cm) →
              is_Some (<[newObjectId env :=
                           mkComment (userId req) (now env) (comment req) (postId req)]>
                         (comments (db w)) !! cm)) as Hkept.
    { intros cm Hcm. destruct (decide (cm = newObjectId env)) as [->|Hne].
      - by rewrite lookup_insert_eq.
      - by rewrite lookup_insert_ne. }
    split.
    + intros uid u cm Hu Hin. destruct (decide (uid = userId req)) as [->|Hne].
      * rewrite lookup_insert_eq in Hu. simplify_eq/=.
        apply elem_of_app in Hin as [Hin|Hin%list_elem_of_singleton]; [eauto|].
        subst cm. by rewrite lookup_insert_eq.
      * rewrite lookup_insert_ne in Hu by done. eauto.
    + intros id p cm Hp Hin. destruct (decide (id = postId req)) as [->|Hne].
      * rewrite lookup_insert_eq in Hp. simplify_eq/=.
        apply elem_of_app in Hin as [Hin|Hin%list_elem_of_singleton]; [eauto|].
        subst cm. by rewrite lookup_insert_eq.
      * rewrite lookup_insert_ne in Hp by done. eauto.
Qed.

(** X14: whatever requests the four mutating operations serve, in whatever
    order and with whatever answers from their collaborators, a store whose
    user lists and posts agree and whose comment lists name stored comments
    is left as such a store. *)
Theorem invariants_survive_any_sequence calls w :
  backrefs_consistent (db w) →
  comment_refs_closed (db w) →
  backrefs_consistent (db (serve calls w))
  ∧ comment_refs_closed (db (serve calls w)).
Proof.
  revert w. induction calls as [|c calls IH]; intros w Hrefs Hcomments; [done|].
  cbn. apply IH; [by apply backrefs_preserved | by apply comment_refs_preserved].
Qed.

(** A post is created, commented, edited and deleted, with a comment on a
    post that does not exist and an edit by a stranger in between. *)
Lemma invariants_survive_witness :
  backrefs_consistent
    (db (serve [mkCall CreatePost healthy_env (sample_request user1 "" "9 Hill Rd");
                mkCall CreateComment healthy_env (sample_request user2 ghost_post "");
                mkCall EditPost healthy_env (sample_request user2 post1 "nowhere");
                mkCall CreateComment user_save_fails_env (sample_request user2 post1 "");
                mkCall EditPost healthy_env (sample_request user1 post1 "5 Mill Ln");
                mkCall DeletePost healthy_env (sample_request user1 post1 "")]
           sample_world))
  ∧ comment_refs_closed
      (db (serve [mkCall CreatePost healthy_env (sample_request user1 "" "9 Hill Rd");
                  mkCall CreateComment healthy_env (sample_request user2 ghost_post "");
                  mkCall EditPost healthy_env (sample_request user2 post1 "nowhere");
                  mkCall CreateComment user_save_fails_env (sample_request user2 post1 "");
                  mkCall EditPost healthy_env (sample_request user1 post1 "5 Mill Ln");
                  mkCall DeletePost healthy_env (sample_request user1 post1 "")]
             sample_world)).
Proof.
  apply invariants_survive_any_sequence;
    apply (bool_decide_unpack _); vm_compute; exact I.
Defined.

(** X15: [deletePost] removes no comment.  After a [deletePost] that
    succeeded the comment collection and every user's comment list are as
    they were, so a comment on the deleted post is still stored, still names
    the post, and the post it names is gone. *)
Theorem deletePost_keeps_comments env req w :
  succeeded (deletePost env req w).1 = true →
  comments (db (deletePost env req w).2) = comments (db w)
  ∧ (∀ id, u_comments <$> (users (db (deletePost env req w).2) !! id)
           = u_comments <$> (users (db w) !! id))
  ∧ (∀ c cm, comments (db w) !! c = Some cm → c_post cm = pid req →
       comments (db (deletePost env req w).2) !! c = Some cm
       ∧ posts (db (deletePost env req w).2) !! c_post cm = None).
Proof.
  intros Hok.
  destruct (deletePost_success env req w _ eq_refl Hok)
    as (post & owner & Hpost & _ & Howner & ->).
  cbn. split_and!; [done| |].
  - intros id. destruct (decide (id = p_creatorId post)) as [->|Hne].
    + by rewrite lookup_insert_eq, Howner.
    + by rewrite lookup_insert_ne.
  - intros c cm Hc ->. by rewrite lookup_delete_eq.
Qed.

Lemma deletePost_keeps_comments_witness :
  comments (db (deletePost healthy_env (sample_request user1 post1 "") sample_world).2)
    !! comment1 = Some (mkComment user2 1500 "Lovely" post1)
  ∧ posts (db (deletePost healthy_env (sample_request user1 post1 "") sample_world).2)
      !! post1 = None
  ∧ u_comments <$>
      (users (db (deletePost healthy_env (sample_request user1 post1 "") sample_world).2)
         !! user2)
    = Some [comment1].
Proof.
  destruct (deletePost_keeps_comments healthy_env (sample_request user1 post1 "")
              sample_world) as (_ & Hlists & Hkept); [vm_compute; reflexivity|].
  destruct (Hkept comment1 (mkComment user2 1500 "Lovely" post1)) as [Hstored Hgone];
    [vm_compute; reflexivity | reflexivity |].
  split; [exact Hstored|]. split; [exact Hgone|].
  rewrite Hlists. vm_compute; reflexivity.
Defined.

(** X16: the only request that is left without a response is a [deletePost]
    of a stored post whose creator is not a stored user: the read of
    [creatorId.id] throws outside every [try].  No other path of the
    handlers lets an exception escape, and in a store whose user lists and
    posts agree no request goes unanswered. *)
Theorem unanswered_only_without_creator env req w e :
  (createPost env req w).1 ≠ unhandled e
  ∧ (editPost env req w).1 ≠ unhandled e
  ∧ (createComment env req w).1 ≠ unhandled e
  ∧ (getFeed env req w).1 ≠ unhandled e
  ∧ (getPostById env req w).1 ≠ unhandled e
  ∧ ((deletePost env req w).1 = unhandled e ↔
       e = TypeError
       ∧ rejects env (PostFindByIdPopulate (pid req)) = false
       ∧ ∃ post, posts (db w) !! pid req = Some post
           ∧ users (db w) !! p_creatorId post = None)
  ∧ (backrefs_consistent (db w) → (deletePost env req w).1 ≠ unhandled e).
Proof.
  assert ((deletePost env req w).1 = unhandled e ↔
            e = TypeError
            ∧ rejects env (PostFindByIdPopulate (pid req)) = false
            ∧ ∃ post, posts (db w) !! pid req = Some post
                ∧ users (db w) !! p_creatorId post = None) as Hdelete.
  { shield (deletePost env req w). run; tidy; explore; unshield; tidy;
      split; intros; leaf; simplify_eq; try clash; eauto 10. }
  split_and!; try done.
  - shield (createPost env req w). run; tidy; explore; unshield; by tidy.
  - shield (editPost env req w). run; tidy; explore; unshield; by tidy.
  - shield (createComment env req w). run; tidy; explore; unshield; by tidy.
  - shield (getFeed env req w). run; tidy; explore; unshield; by tidy.
  - shield (getPostById env req w). run_reads; tidy; explore; unshield; by tidy.
  - intros [_ Hlisted] Hunhandled. rewrite listed_by_creator_lookup in Hlisted.
    apply Hdelete in Hunhandled as (_ & _ & post & Hpost & Hcreator).
    destruct (Hlisted _ _ Hpost) as (u & Hu & _). congruence.
Qed.

(** A post whose creator is not stored. *)
Lemma unanswered_witness :
  (deletePost healthy_env (sample_request user1 post1 "")
     (mkWorld (mkStore ∅ {[ post1 := cabin ]} ∅) [])).1
  = unhandled TypeError.
Proof.
  apply (proj1 (proj2 (proj2 (proj2 (proj2 (proj2
           (unanswered_only_without_creator healthy_env (sample_request user1 post1 "")
              (mkWorld (mkStore ∅ {[ post1 := cabin ]} ∅) []) TypeError))))))).
  split; [reflexivity|]. split; [reflexivity|].
  exists cabin. split; vm_compute; reflexivity.
Defined.

(** X17: the calls of a request that succeeded, in order.  The writes of
    [createPost], [deletePost] and [createComment] all lie between the start
    of the session and the commit, the primary document first, and the
    commit is the last call; [editPost] writes once, after the lookup and
    the geocoder call if there is one. *)
Theorem calls_of_a_successful_request env req w :
  (succeeded (createPost env req w).1 = true →
   calls_since w (createPost env req w).2
   = [Geocode (address req); Db (UserFindById (userId req)); Db StartSession;
      Db (PostSave (newObjectId env)); Db (UserSave (userId req));
      Db CommitTransaction])
  ∧ (succeeded (deletePost env req w).1 = true →
     calls_since w (deletePost env req w).2
     = [Db (PostFindByIdPopulate (pid req)); Db StartSession;
        Db (PostRemove (pid req)); Db (UserSave (userId req));
        Db CommitTransaction])
  ∧ (succeeded (createComment env req w).1 = true →
     calls_since w (createComment env req w).2
     = [Db (UserFindById (userId req)); Db (PostFindById (postId req));
        Db StartSession; Db (CommentSave (newObjectId env));
        Db (UserSave (userId req)); Db (PostSave (postId req));
        Db CommitTransaction])
  ∧ (succeeded (editPost env req w).1 = true →
     calls_since w (editPost env req w).2
     = [Db (PostFindById (pid req)); Db (PostSave (pid req))]
     ∨ calls_since w (editPost env req w).2
       = [Db (PostFindById (pid req)); Geocode (address req);
          Db (PostSave (pid req))]).
Proof.
  split_and!.
  - shield (createPost env req w). run; tidy; explore; unshield; tidy;
      intros Hok; try discriminate Hok; by traces.
  - shield (deletePost env req w). run; tidy; explore; unshield; tidy;
      intros Hok; try discriminate Hok; traces; by rewrite Hb.
  - shield (createComment env req w). run; tidy; explore; unshield; tidy;
      intros Hok; try discriminate Hok; by traces.
  - shield (editPost env req w). run; tidy; explore; unshield; tidy;
      intros Hok; try discriminate Hok; traces; auto.
Qed.

Lemma calls_of_a_successful_request_witness :
  calls_since sample_world
    (createComment healthy_env (sample_request user2 post1 "") sample_world).2
  = [Db (UserFindById user2); Db (PostFindById post1); Db StartSession;
     Db (CommentSave fresh_id); Db (UserSave user2); Db (PostSave post1);
     Db CommitTransaction].
Proof.
  apply (proj1 (proj2 (proj2 (calls_of_a_successful_request healthy_env
                                (sample_request user2 post1 "") sample_world)))).
  vm_compute; reflexivity.
Defined.

Lemma pull_snoc_fresh id l : id ∉ l → pull id (l ++ [id]) = l.
Proof.
  intros Hfresh. unfold pull.
  rewrite filter_app, filter_cons_False, filter_nil, app_nil_r by naive_solver.
  induction l as [|x l IH]; [done|].
  rewrite filter_cons_True by set_solver. f_equal. apply IH. set_solver.
Qed.

(** X18: creating a post and then deleting it, both with success, gives back
    the store as it was before the two, when the user lists of that store
    named stored posts only. *)
Theorem create_then_delete_restores env req w env' req' :
  backrefs_consistent (db w) →
  succeeded (createPost env req w).1 = true →
  pid req' = newObjectId env →
  succeeded (deletePost env' req' (createPost env req w).2).1 = true →
  db (deletePost env' req' (createPost env req w).2).2 = db w.
Proof.
  intros [Hown _] Hcreated Hpid Hdeleted.
  rewrite lists_own_posts_lookup in Hown.
  destruct (createPost_success env req w _ eq_refl Hcreated)
    as (user & c & Huser & Hfresh & _ & Hdb).
  destruct (deletePost_success env' req' _ _ eq_refl Hdeleted)
    as (post & owner & Hpost & _ & Howner & ->).
  rewrite Hdb, Hpid in *. clear Hdb. cbn in *.
  rewrite lookup_insert_eq in Hpost. injection Hpost as <-. cbn in *.
  rewrite lookup_insert_eq in Howner. injection Howner as <-. cbn.
  rewrite insert_insert_eq, delete_insert_eq, delete_id by done.
  change (filter _ (u_posts user ++ [newObjectId env]))
    with (pull (newObjectId env) (u_posts user ++ [newObjectId env])).
  rewrite pull_snoc_fresh.
  - rewrite insert_id; [by destruct (db w)|by destruct user].
  - intros Hin. destruct (Hown _ _ _ Huser Hin) as (p & Hp & _). congruence.
Qed.

Lemma create_then_delete_witness :
  db (deletePost healthy_env (sample_request user1 fresh_id "")
        (createPost healthy_env (sample_request user1 "" "9 Hill Rd") sample_world).2).2
  = db sample_world.
Proof.
  apply create_then_delete_restores;
    [apply (bool_decide_unpack _); vm_compute; exact I
    | vm_compute; reflexivity | reflexivity | vm_compute; reflexivity].
Defined.

(** X19: a post that [deletePost] reported as deleted is gone for the next
    [deletePost]: whoever asks, and whatever the store holds otherwise, the
    lookup that answers gives the 404 (the NotFound kind) and nothing is
    written. *)
Theorem deleted_post_is_not_found_again env req w env' req' :
  succeeded (deletePost env req w).1 = true →
  pid req' = pid req →
  rejects env' (PostFindByIdPopulate (pid req)) = false →
  (deletePost env' req' (deletePost env req w).2).1
    = next (HttpError "Could not find a matching post ID." "404")
  ∧ db (deletePost env' req' (deletePost env req w).2).2
    = db (deletePost env req w).2.
Proof.
  intros Hok Hpid Hfind.
  destruct (deletePost_success env req w _ eq_refl Hok)
    as (post & owner & _ & _ & _ & Hdb).
  assert (posts (db (deletePost env req w).2) !! pid req' = None) as Hgone
    by (rewrite Hdb, Hpid; apply lookup_delete_eq).
  rewrite <- Hpid in Hfind. revert Hgone Hfind.
  generalize (deletePost env req w).2. intros w' Hgone Hfind.
  shield (deletePost env' req' w'). run; tidy; explore; unshield; by tidy.
Qed.

Lemma deleted_post_witness :
  (deletePost healthy_env (sample_request user1 post1 "")
     (deletePost healthy_env (sample_request user1 post1 "") sample_world).2).1
  = next (HttpError "Could not find a matching post ID." "404").
Proof.
  apply (deleted_post_is_not_found_again healthy_env (sample_request user1 post1 "")
           sample_world healthy_env (sample_request user1 post1 ""));
    [vm_compute; reflexivity | reflexivity | reflexivity].
Defined.

(** ** The feed after a write *)

Lemma all_posts_insert s id p :
  posts s !! id = None →
  all_posts (mkStore (users s) (<[id := p]> (posts s)) (comments s))
  ≡ₚ mkDoc id p :: all_posts s.
Proof.
  intros Hfresh. unfold all_posts. cbn.
  by rewrite map_to_list_insert.
Qed.

(** In a list sorted by creation date, a member of the first [n] has fewer
    than [n] strictly older members before it, and none after. *)
Lemma older_than_prefix_member l n d :
  StronglySorted createDate_le l →
  d ∈ take n l →
  (length (filter (λ x, (p_createDate (fields x) < p_createDate (fields d))%Z) l) < n)%nat.
Proof.
  intros Hsorted (i & Hi & Hlt)%elem_of_take.
  rewrite <- (take_drop_middle l i d Hi) in Hsorted |- *.
  apply StronglySorted_app_1_r in Hsorted.
  apply StronglySorted_inv in Hsorted as [_ Hlater].
  rewrite filter_app, length_app.
  assert (filter (λ x, p_createDate (fields x) < p_createDate (fields d))
            (d :: drop (S i) l) = []) as ->.
  { rewrite filter_cons_False by lia.
    induction Hlater as [|x xs Hx _ IH]; [done|].
    rewrite filter_cons_False; [done|]. unfold createDate_le in Hx. lia. }
  pose proof (length_filter (λ x, p_createDate (fields x) < p_createDate (fields d))
                (take i l)) as Hle.
  rewrite length_take in Hle. cbn. lia.
Qed.

(** X20: the feed keeps the 50 oldest posts.  Once the store holds 50 posts
    older than a new one, a post that [createPost] reported as created is
    not in the feed. *)
Theorem new_post_is_missing_from_a_full_feed env req w env' req' :
  succeeded (createPost env req w).1 = true →
  (50 ≤ length (filter (λ d, (p_createDate (fields d) < now env)%Z)
                  (all_posts (db w))))%nat →
  newObjectId env ∉ _id <$> feed_of (getFeed env' req' (createPost env req w).2).1.
Proof.
  intros Hok Hfull.
  destruct (createPost_success env req w _ eq_refl Hok)
    as (user & c & _ & Hfresh & _ & Hdb).
  revert Hdb. generalize (createPost env req w).2. intros w' Hdb.
  set (created := mkPost (title req) (description req) (userId req)
                    (address req) c (now env) (file_location req) []) in Hdb.
  assert (feed_of (getFeed env' req' w').1 = []
          ∨ feed_of (getFeed env' req' w').1
            = take 50 (sort_createDate_asc (all_posts (db w')))) as [Hfeed|Hfeed]
    by (run; tidy; destruct (rejects env' PostFind); tidy; auto).
  { rewrite Hfeed. by intros Hin%elem_of_nil. }
  rewrite Hfeed.
  intros (d & Hid & Hin)%list_elem_of_fmap.
  assert (fields d = created) as Hd.
  { apply subseteq_take in Hin. unfold sort_createDate_asc in Hin.
    rewrite merge_sort_Permutation in Hin. apply elem_of_all_posts in Hin.
    rewrite Hdb, <- Hid in Hin. cbn in Hin. rewrite lookup_insert_eq in Hin.
    congruence. }
  apply older_than_prefix_member in Hin;
    [|apply StronglySorted_merge_sort; apply _].
  unfold sort_createDate_asc in Hin.
  rewrite merge_sort_Permutation, Hdb in Hin.
  pose proof (all_posts_insert (db w) (newObjectId env) created Hfresh) as Hperm.
  destruct (db w) as [us ps cs]. cbn in Hperm. rewrite Hperm in Hin.
  rewrite Hd in Hin. rewrite filter_cons_False in Hin by (cbn; lia).
  subst created. cbn [p_createDate] in Hin. lia.
Qed.

Lemma new_post_is_missing_witness :
  fresh_id ∉ _id <$>
    feed_of (getFeed healthy_env (sample_request user1 "" "")
               (createPost healthy_env (sample_request user1 "" "9 Hill Rd")
                  crowded_world).2).1.
Proof.
  apply (new_post_is_missing_from_a_full_feed healthy_env
           (sample_request user1 "" "9 Hill Rd") crowded_world healthy_env
           (sample_request user1 "" ""));
    [vm_compute; reflexivity | vm_compute; apply le_n].
Defined.

(** X21: while the store holds at most 50 posts, the feed that the query
    answers holds every stored post, each once. *)
Theorem feed_is_complete_up_to_50 env req w :
  rejects env PostFind = false →
  (size (posts (db w)) ≤ 50)%nat →
  feed_of (getFeed env req w).1 ≡ₚ all_posts (db w).
Proof.
  intros Hfind Hsize. run; tidy. rewrite Hfind. tidy. cbn [feed_of].
  rewrite take_ge.
  - apply merge_sort_Permutation.
  - unfold sort_createDate_asc. rewrite merge_sort_Permutation.
    unfold all_posts. by rewrite length_fmap, length_map_to_list.
Qed.

Lemma feed_is_complete_witness :
  feed_of (getFeed healthy_env (sample_request user1 "" "") sample_world).1
  ≡ₚ all_posts (db sample_world).
Proof.
  apply feed_is_complete_up_to_50; [reflexivity | vm_compute; lia].
Defined.
